(** * IVFclinicsweep: the crawl-and-extract pipeline of [app.py]

    A shallow embedding of [is_valid_url], [get_all_links], [parse_xpath],
    [extract_data] and [scrape_website], and the properties the
    specification states about them.

    The third-party collaborators of the pipeline (requests, BeautifulSoup,
    urllib.parse, the set iteration order and the Unicode database of the
    interpreter, and the completion order of the thread pool) are an
    interface, [World]; every theorem holds for every implementation of it.
    The Streamlit widgets (progress bar, status line, error banner) only
    display and are left out. *)

From Stdlib Require Import String Ascii List ZArith NArith Lia Bool Permutation.
From Stdlib Require Import DecimalString.
Import ListNotations.
Local Open Scope string_scope.

(** ** Python values *)

Module Py.

(** The outcome of an expression: a value, or a raised exception carried
    by its message, [str(e)]. *)
Inductive result (A : Type) : Type :=
| Ok (a : A)
| Raise (msg : string).
Arguments Ok {A} a.
Arguments Raise {A} msg.

(** [str(n)] for an int. *)
Definition str_int (n : Z) : string := NilZero.string_of_int (Z.to_int n).

(** Truth value of a str: the empty string is false. *)
Definition truthy (s : string) : bool :=
  match s with EmptyString => false | String _ _ => true end.

(** Truth value of a value that is [None] or a str. *)
Definition truthy_opt (o : option string) : bool :=
  match o with None => false | Some s => truthy s end.

(** [l[:n]]: a negative bound counts from the end. *)
Definition slice_to {A : Type} (l : list A) (n : Z) : list A :=
  if (0 <=? n)%Z then firstn (Z.to_nat n) l
  else firstn (Z.to_nat (Z.of_nat (length l) + n)) l.

(** A dict: insertion-ordered, one binding per key. *)
Definition dict (V : Type) : Type := list (string * V).

Fixpoint get {V : Type} (d : dict V) (k : string) : option V :=
  match d with
  | [] => None
  | (k', v) :: r => if (k' =? k)%string then Some v else get r k
  end.

(** [d.get(k, default)] *)
Definition get_or {V : Type} (d : dict V) (k : string) (default : V) : V :=
  match get d k with Some v => v | None => default end.

(** [d[k] = v]: an existing key keeps its place, a new one goes last. *)
Fixpoint set {V : Type} (d : dict V) (k : string) (v : V) : dict V :=
  match d with
  | [] => [(k, v)]
  | (k', v') :: r =>
      if (k' =? k)%string then (k', v) :: r else (k', v') :: set r k v
  end.

Definition keys {V : Type} (d : dict V) : list string := map fst d.

(** [x in l] for a list of str. *)
Definition mem (x : string) (l : list string) : bool :=
  existsb (String.eqb x) l.

End Py.

Import Py.

(** Characters that a string literal cannot hold. *)
Definition dquote : ascii := "034"%char.
Definition newline : ascii := "010"%char.
Definition dq : string := String dquote EmptyString.
Definition nl : string := String newline EmptyString.

(** ** Characters

    A Python str is a sequence of code points; a [string] here holds its
    UTF-8 encoding, as a string literal of this file does.  [Utf8.next]
    reads the code point a string starts with. *)

Module Utf8.

(** A continuation byte, and the six bits it carries. *)
Definition cont (b : ascii) : bool :=
  let n := N_of_ascii b in ((128 <=? n) && (n <=? 191))%N.

Definition low6 (b : ascii) : N := (N_of_ascii b - 128)%N.

(** The number of bytes of the character that starts with [b]; 0 when no
    character starts with it. *)
Definition width (b : ascii) : nat :=
  let n := N_of_ascii b in
  if (n <? 128)%N then 1
  else if ((194 <=? n) && (n <=? 223))%N then 2
  else if ((224 <=? n) && (n <=? 239))%N then 3
  else if ((240 <=? n) && (n <=? 244))%N then 4
  else 0.

Definition cp1 (b0 : ascii) : N := N_of_ascii b0.

Definition cp2 (b0 b1 : ascii) : N :=
  ((N_of_ascii b0 - 192) * 64 + low6 b1)%N.

Definition cp3 (b0 b1 b2 : ascii) : N :=
  (((N_of_ascii b0 - 224) * 64 + low6 b1) * 64 + low6 b2)%N.

Definition cp4 (b0 b1 b2 b3 : ascii) : N :=
  ((((N_of_ascii b0 - 240) * 64 + low6 b1) * 64 + low6 b2) * 64
   + low6 b3)%N.

(** The first code point of [s], the bytes that encode it and what
    follows them; [None] at the end of [s] and where no character
    starts. *)
Definition next (s : string) : option (N * string * string) :=
  match s with
  | EmptyString => None
  | String b0 s0 =>
      match width b0 with
      | 1 => Some (cp1 b0, String b0 EmptyString, s0)
      | 2 =>
          match s0 with
          | String b1 s1 =>
              if cont b1 then
                Some (cp2 b0 b1, String b0 (String b1 EmptyString), s1)
              else None
          | _ => None
          end
      | 3 =>
          match s0 with
          | String b1 (String b2 s2) =>
              if cont b1 && cont b2 then
                Some (cp3 b0 b1 b2,
                      String b0 (String b1 (String b2 EmptyString)), s2)
              else None
          | _ => None
          end
      | 4 =>
          match s0 with
          | String b1 (String b2 (String b3 s3)) =>
              if cont b1 && cont b2 && cont b3 then
                Some (cp4 b0 b1 b2 b3,
                      String b0
                        (String b1 (String b2 (String b3 EmptyString))),
                      s3)
              else None
          | _ => None
          end
      | _ => None
      end
  end.

End Utf8.

(** ** The pattern of [parse_xpath]

    [re.match] anchors the pattern at the start of [xpath] only.  The
    pattern is, writing Q for the double quote character,
    [//(\w+)(?:\[@(\w+)=Q([^Q]+)Q\])?].  Each repetition is followed by a
    character that lies outside its class, so the greedy match is the only
    one the backtracking matcher can find and a left-to-right scan computes
    it.

    The pattern is a str pattern, so [\w] is a Unicode word character:
    the underscore, or a character for which [str.isalnum()] holds.  On
    ASCII these are the letters, the digits and the underscore; beyond
    ASCII the answer is that of the Unicode database of the interpreter,
    [isalnum] below.  The double quote is one byte and no byte of a longer
    character equals it, so [[^Q]+] is scanned byte by byte. *)

Module Re.

(** The word characters of ASCII. *)
Definition ascii_word (c : ascii) : bool :=
  let n := nat_of_ascii c in
  ((48 <=? n) && (n <=? 57) || (65 <=? n) && (n <=? 90)
   || (97 <=? n) && (n <=? 122) || (n =? 95))%nat.

Definition not_quote (c : ascii) : bool := negb (Ascii.eqb c dquote).

(** The longest prefix of [s] whose bytes satisfy [p], and the rest. *)
Fixpoint span (p : ascii -> bool) (s : string) : string * string :=
  match s with
  | EmptyString => (EmptyString, EmptyString)
  | String c r =>
      if p c then let (a, b) := span p r in (String c a, b)
      else (EmptyString, s)
  end.

(** The literal [p] at the start of [s]: what follows it. *)
Fixpoint lit (p s : string) : option string :=
  match p with
  | EmptyString => Some s
  | String c p' =>
      match s with
      | EmptyString => None
      | String d s' => if Ascii.eqb c d then lit p' s' else None
      end
  end.

(** A match object: group 1 always took part, groups 2 and 3 are [None]
    when the optional group did not. *)
Record match_object : Type := {
  group1 : string;
  group2 : option string;
  group3 : option string
}.

Section Pattern.

(** [chr(cp).isalnum()], asked for the code points beyond ASCII. *)
Variable isalnum : N -> bool.

(** [\w] on a code point. *)
Definition word_char (cp : N) : bool :=
  if (cp <? 128)%N then ascii_word (ascii_of_N cp) else isalnum cp.

(** [\w*] at the start of [s]: the longest run of word characters, and
    the rest. *)
Fixpoint span_word (s : string) : string * string :=
  match s with
  | EmptyString => (EmptyString, EmptyString)
  | String b0 s0 =>
      match Utf8.width b0 with
      | 1 =>
          if word_char (Utf8.cp1 b0) then
            let (a, b) := span_word s0 in (String b0 a, b)
          else (EmptyString, s)
      | 2 =>
          match s0 with
          | String b1 s1 =>
              if Utf8.cont b1 then
                if word_char (Utf8.cp2 b0 b1) then
                  let (a, b) := span_word s1 in
                  (String b0 (String b1 a), b)
                else (EmptyString, s)
              else (EmptyString, s)
          | _ => (EmptyString, s)
          end
      | 3 =>
          match s0 with
          | String b1 (String b2 s2) =>
              if Utf8.cont b1 && Utf8.cont b2 then
                if word_char (Utf8.cp3 b0 b1 b2) then
                  let (a, b) := span_word s2 in
                  (String b0 (String b1 (String b2 a)), b)
                else (EmptyString, s)
              else (EmptyString, s)
          | _ => (EmptyString, s)
          end
      | 4 =>
          match s0 with
          | String b1 (String b2 (String b3 s3)) =>
              if Utf8.cont b1 && Utf8.cont b2 && Utf8.cont b3 then
                if word_char (Utf8.cp4 b0 b1 b2 b3) then
                  let (a, b) := span_word s3 in
                  (String b0 (String b1 (String b2 (String b3 a))), b)
                else (EmptyString, s)
              else (EmptyString, s)
          | _ => (EmptyString, s)
          end
      | _ => (EmptyString, s)
      end
  end.

(** The optional group, [\[@(\w+)=Q([^Q]+)Q\]], at the start of [s]. *)
Definition attr_group (s : string) : option (string * string) :=
  match lit "[@" s with
  | None => None
  | Some s1 =>
      let (a, s2) := span_word s1 in
      if truthy a then
        match lit ("=" ++ dq) s2 with
        | None => None
        | Some s3 =>
            let (v, s4) := span not_quote s3 in
            if truthy v then
              match lit (dq ++ "]") s4 with
              | None => None
              | Some _ => Some (a, v)
              end
            else None
        end
      else None
  end.

Definition match_xpath (s : string) : option match_object :=
  match lit "//" s with
  | None => None
  | Some s1 =>
      let (tag, s2) := span_word s1 in
      if truthy tag then
        Some match attr_group s2 with
             | Some (a, v) =>
                 {| group1 := tag; group2 := Some a; group3 := Some v |}
             | None =>
                 {| group1 := tag; group2 := None; group3 := None |}
             end
      else None
  end.

End Pattern.

End Re.

(** ** The collaborators *)

(** What the pipeline reads of a [requests] response. *)
Record response : Type := {
  status_code : Z;
  text : string
}.

(** What the pipeline reads of a [urlparse] result. *)
Record parse_result : Type := {
  scheme : string;
  netloc : string
}.

(** The libraries the pipeline calls.  A call that raises is a [Raise].
    [requests_get] answers a URL the same way each time it is asked during
    a crawl.  [soup_find_all_a_href soup] is [soup.find_all('a', href=True)]
    and [tag_href a_tag] is [a_tag['href']]; [get_text_strip tag] is
    [tag.get_text(strip=True)].  [set_list l] is [list(set(l))]: the
    interpreter fixes the order, the elements are those of [l], once each.
    [as_completed] is the order in which the futures of the submitted URLs
    complete, any rearrangement of the order of submission.
    [unicode_isalnum cp] is [chr(cp).isalnum()], which [re] consults for
    [\w], and [BeautifulSoup_version] is what reading
    [BeautifulSoup.__version__] gives. *)
Class World : Type := {
  Soup : Type;
  Tag : Type;
  unicode_isalnum : N -> bool;
  BeautifulSoup_version : result string;
  requests_get : string -> result response;
  BeautifulSoup : string -> result Soup;
  soup_select : Soup -> string -> result (list Tag);
  soup_find_all : Soup -> string -> dict string -> result (list Tag);
  soup_find_all_a_href : Soup -> result (list Tag);
  tag_href : Tag -> string;
  get_text_strip : Tag -> string;
  urlparse : string -> result parse_result;
  urljoin : string -> string -> result string;
  set_list : list string -> list string;
  set_list_NoDup : forall l, NoDup (set_list l);
  set_list_In : forall l x, In x (set_list l) <-> In x l;
  as_completed : list string -> list string;
  as_completed_perm : forall l, Permutation (as_completed l) l
}.

(** ** Statements: state and exceptions *)

(** The GET requests issued so far, and the two lists [scrape_website]
    appends to, which its handlers read after an exception. *)
Record store : Type := {
  requests_log : list string;
  all_data : list (dict string);
  error_log : list string
}.

Definition M (A : Type) : Type := store -> store * result A.

Definition ret {A : Type} (a : A) : M A := fun s => (s, Ok a).

Definition bind {A B : Type} (m : M A) (f : A -> M B) : M B :=
  fun s =>
    match m s with
    | (s', Ok a) => f a s'
    | (s', Raise e) => (s', Raise e)
    end.

Definition lift {A : Type} (r : result A) : M A := fun s => (s, r).

Definition raise {A : Type} (e : string) : M A := fun s => (s, Raise e).

(** [try: body / except Exception as e: handler] *)
Definition try_except {A : Type} (body : M A) (handler : string -> M A) : M A :=
  fun s =>
    match body s with
    | (s', Ok a) => (s', Ok a)
    | (s', Raise e) => handler e s'
    end.

Notation "x <- m ;; k" := (bind m (fun x => k))
  (at level 61, m at next level, right associativity).
Notation "m ;;; k" := (bind m (fun _ => k))
  (at level 61, right associativity).

(** A [for] loop that threads a local through its iterations. *)
Fixpoint foldM {A B : Type} (f : B -> A -> M B) (l : list A) (b : B) : M B :=
  match l with
  | [] => ret b
  | x :: r => b' <- f b x ;; foldM f r b'
  end.

Fixpoint for_each {A : Type} (l : list A) (body : A -> M unit) : M unit :=
  match l with
  | [] => ret tt
  | x :: r => body x ;;; for_each r body
  end.

(** [enumerate(l)] *)
Fixpoint enumerate_from {A : Type} (i : nat) (l : list A) : list (nat * A) :=
  match l with
  | [] => []
  | x :: r => (i, x) :: enumerate_from (S i) r
  end.

Definition append_data (data : dict string) : M unit :=
  fun s => ({| requests_log := requests_log s;
               all_data := (all_data s ++ [data])%list;
               error_log := error_log s |}, Ok tt).

Definition append_error (line : string) : M unit :=
  fun s => ({| requests_log := requests_log s;
               all_data := all_data s;
               error_log := (error_log s ++ [line])%list |}, Ok tt).

Definition log_request (url : string) (s : store) : store :=
  {| requests_log := (requests_log s ++ [url])%list;
     all_data := all_data s;
     error_log := error_log s |}.

(** [all_data = []] and [error_log = []] at the start of a call. *)
Definition init_store (s : store) : store :=
  {| requests_log := requests_log s; all_data := []; error_log := [] |}.

Definition init_locals : M unit := fun s => (init_store s, Ok tt).

Definition read_all_data : M (list (dict string)) :=
  fun s => (s, Ok (all_data s)).

Definition read_error_log : M (list string) :=
  fun s => (s, Ok (error_log s)).

(** A computation that leaves the store as it is and whose result does
    not depend on it. *)
Definition steady {A : Type} (m : M A) (r : result A) : Prop :=
  forall s, m s = (s, r).

(** ** The pipeline *)

Section Pipeline.

Context {W : World}.

(** [parse_xpath(xpath)] *)
Definition parse_xpath (xpath : string) : string * dict string :=
  match Re.match_xpath unicode_isalnum xpath with
  | Some m =>
      let tag := Re.group1 m in
      if truthy_opt (Re.group2 m) && truthy_opt (Re.group3 m) then
        match Re.group2 m, Re.group3 m with
        | Some a, Some v => (tag, [(a, v)])
        | _, _ => (tag, [])
        end
      else (tag, [])
  | None => ("div", [])
  end.

(** [requests.get(url, headers=headers, timeout=5)] *)
Definition http_get (url : string) : M response :=
  fun s => (log_request url s, requests_get url).

(** [is_valid_url(url)] *)
Definition is_valid_url (url : string) : bool :=
  match urlparse url with
  | Ok result => truthy (scheme result) && truthy (netloc result)
  | Raise _ => false
  end.

(** The body of the loop of [get_all_links]. *)
Definition add_link (url base_domain : string) (links : list string)
    (a_tag : Tag) : M (list string) :=
  let href := tag_href a_tag in
  full_url <- lift (urljoin url href) ;;
  parsed <- lift (urlparse full_url) ;;
  if (netloc parsed =? base_domain)%string then ret (links ++ [full_url])%list
  else ret links.

(** [get_all_links(url, base_domain)] *)
Definition get_all_links (url base_domain : string) : M (list string) :=
  try_except
    (response <- http_get url ;;
     if negb (status_code response =? 200)%Z then ret []
     else
       soup <- lift (BeautifulSoup (text response)) ;;
       a_tags <- lift (soup_find_all_a_href soup) ;;
       links <- foldM (add_link url base_domain) a_tags [] ;;
       ret (set_list links))
    (fun _ => ret []).

Definition selectors_t : Type := dict (dict string).

(** [{selector: "N/A" for selector in selectors}] *)
Definition not_found (selectors : selectors_t) : dict string :=
  fold_left (fun d selector => set d selector "N/A") (keys selectors) [].

(** The elements a rule selects: the [if]/[elif]/[else] on its kind. *)
Definition select_elements (soup : Soup) (selector_info : dict string)
    : result (list Tag) :=
  let selector_type := get_or selector_info "type" "css" in
  let selector_value := get_or selector_info "value" "" in
  if (selector_type =? "css")%string then
    soup_select soup selector_value
  else if (selector_type =? "xpath")%string then
    let (tag, attrs) := parse_xpath selector_value in
    soup_find_all soup tag attrs
  else Ok [].

(** The value a rule writes into its field. *)
Definition field_value (elements : list Tag) : string :=
  match elements with
  | first :: _ => get_text_strip first
  | [] => "N/A"
  end.

(** The body of the loop of [extract_data]. *)
Definition extract_field (soup : Soup) (results : dict string)
    (item : string * dict string) : M (dict string) :=
  let (selector_name, selector_info) := item in
  elements <- lift (select_elements soup selector_info) ;;
  ret (set results selector_name (field_value elements)).

(** [extract_data(url, selectors)] *)
Definition extract_data (url : string) (selectors : selectors_t)
    : M (dict string * option string) :=
  try_except
    (response <- http_get url ;;
     if negb (status_code response =? 200)%Z then
       ret (not_found selectors,
            Some ("Error: HTTP " ++ str_int (status_code response)))
     else
       soup <- lift (BeautifulSoup (text response)) ;;
       results <- foldM (extract_field soup) selectors [] ;;
       ret (results, None))
    (fun e => ret (not_found selectors, Some ("Error: " ++ e))).

(** The worklist: the start URL, the links of the start page that are
    not yet in it when crawling is on, cut to [max_pages]. *)
Definition add_url (urls_to_visit : list string) (link : string)
    : list string :=
  if mem link urls_to_visit then urls_to_visit
  else (urls_to_visit ++ [link])%list.

Definition build_worklist (start_url base_domain : string) (max_pages : Z)
    (crawl_same_domain : bool) : M (list string) :=
  urls_to_visit <-
    (if crawl_same_domain then
       new_links <- get_all_links start_url base_domain ;;
       ret (fold_left add_url new_links [start_url])
     else ret [start_url]) ;;
  ret (slice_to urls_to_visit max_pages).

(** [(i + 1) / total_urls], shown on the progress bar. *)
Definition update_progress (i total_urls : nat) : M unit :=
  if (total_urls =? 0)%nat then raise "division by zero" else ret tt.

(** What a future holds once its task has run: what the call of
    [extract_data] returned or raised. *)
Definition future : Type := result (dict string * option string).

(** [executor.submit(extract_data, url, selectors): url], the entry the
    dict comprehension adds.  The pool takes up the tasks in the order of
    their submission, so the requests are logged in that order; what a
    task raises stays in its future.  The futures are distinct keys, so
    no entry replaces another; the model names a future by its URL. *)
Definition submit (selectors : selectors_t) (future_to_url : dict future)
    (url : string) : M (dict future) :=
  fun s =>
    let (s', outcome) := extract_data url selectors s in
    (s', Ok (future_to_url ++ [(url, outcome)])%list).

(** [future.result()] for the future of [url].  A future that completes
    is one that was submitted, so the lookup finds it. *)
Definition future_result (future_to_url : dict future) (url : string)
    : future :=
  match get future_to_url url with
  | Some outcome => outcome
  | None => Raise url
  end.

(** The body of the loop over the completed futures. *)
Definition collect (future_to_url : dict future) (total_urls : nat)
    (item : nat * string) : M unit :=
  let (i, url) := item in
  try_except
    (outcome <- lift (future_result future_to_url url) ;;
     let (data, error) := outcome in
     (match error with
      | Some msg =>
          if truthy msg then append_error ("Error on " ++ url ++ ": " ++ msg)
          else ret tt
      | None => ret tt
      end) ;;;
     append_data (set data "url" url) ;;;
     update_progress i total_urls)
    (fun e => append_error ("Error processing " ++ url ++ ": " ++ e)).

(** [pd.DataFrame(all_data)]: the rows, in order. *)
Definition DataFrame : Type := list (dict string).

(** [scrape_website(start_url, selectors, max_pages, crawl_same_domain)] *)
Definition scrape_website (start_url : string) (selectors : selectors_t)
    (max_pages : Z) (crawl_same_domain : bool) : M (DataFrame * string) :=
  if negb (is_valid_url start_url) then ret ([], "Invalid URL provided")
  else
    init_locals ;;;
    parsed <- lift (urlparse start_url) ;;
    let base_domain := netloc parsed in
    failure <-
      try_except
        (urls_to_visit <- build_worklist start_url base_domain max_pages
                            crawl_same_domain ;;
         let total_urls := length urls_to_visit in
         future_to_url <- foldM (submit selectors) urls_to_visit [] ;;
         for_each (enumerate_from 0 (as_completed (keys future_to_url)))
                  (collect future_to_url total_urls) ;;;
         ret None)
        (fun e =>
           errors <- read_error_log ;;
           let error_msg := "Error during scraping: " ++ e in
           ret (Some (match errors with
                      | [] => error_msg
                      | _ :: _ =>
                          error_msg ++ nl ++ "Additional errors: "
                          ++ String.concat ", " errors
                      end))) ;;
    rows <- read_all_data ;;
    match failure with
    | Some error_msg => ret (rows, error_msg)
    | None =>
        errors <- read_error_log ;;
        let result_msg :=
          "Successfully scraped " ++ str_int (Z.of_nat (length rows))
          ++ " pages" in
        ret (rows,
             match errors with
             | [] => result_msg
             | _ :: _ =>
                 result_msg ++ nl ++ "Warnings: "
                 ++ str_int (Z.of_nat (length errors)) ++ " pages had errors"
             end)
    end.

(** *** What the statements below speak of *)

Definition empty_store : store :=
  {| requests_log := []; all_data := []; error_log := [] |}.

(** The pair [extract_data] returns for a page. *)
Definition page_outcome (url : string) (selectors : selectors_t)
    : dict string * option string :=
  match snd (extract_data url selectors empty_store) with
  | Ok outcome => outcome
  | Raise _ => ([], None)
  end.

(** The row [scrape_website] appends for a page. *)
Definition record_of (selectors : selectors_t) (url : string) : dict string :=
  set (fst (page_outcome url selectors)) "url" url.

(** Whether a page adds a line to the warnings. *)
Definition has_error (selectors : selectors_t) (url : string) : bool :=
  truthy_opt (snd (page_outcome url selectors)).

Definition row_url (row : dict string) : string := get_or row "url" "".

(** A start URL with both a scheme and a host. *)
Definition well_formed (url : string) : Prop :=
  exists parsed,
    urlparse url = Ok parsed /\ scheme parsed <> "" /\ netloc parsed <> "".

(** The fetch of a page fails with the error note [err]: the request
    raises, or the status is not 200. *)
Definition fetch_failure (url err : string) : Prop :=
  (exists cause, requests_get url = Raise cause /\ err = "Error: " ++ cause)
  \/ (exists response,
        requests_get url = Ok response
        /\ status_code response <> 200%Z
        /\ err = "Error: HTTP " ++ str_int (status_code response)).

(** The anchors with an href of a page that is fetched with status 200
    and parsed; [None] when one of these steps fails. *)
Definition page_anchors (url : string) : option (list Tag) :=
  match requests_get url with
  | Ok response =>
      if (status_code response =? 200)%Z then
        match BeautifulSoup (text response) with
        | Ok soup =>
            match soup_find_all_a_href soup with
            | Ok a_tags => Some a_tags
            | Raise _ => None
            end
        | Raise _ => None
        end
      else None
  | Raise _ => None
  end.

(** The href of an anchor joins with the page URL and the result
    parses: neither call raises. *)
Definition resolves (url : string) (a_tag : Tag) : Prop :=
  exists full_url parsed,
    urljoin url (tag_href a_tag) = Ok full_url
    /\ urlparse full_url = Ok parsed.

(** The line a failed page adds to the warnings. *)
Definition warning_line (selectors : selectors_t) (url : string) : string :=
  "Error on " ++ url ++ ": "
  ++ match snd (page_outcome url selectors) with
     | Some msg => msg
     | None => ""
     end.

(** The store once the future of a page is collected, and once those of
    a list of pages are, in that order. *)
Definition after_page (selectors : selectors_t) (s : store) (url : string)
    : store :=
  {| requests_log := requests_log s;
     all_data := (all_data s ++ [record_of selectors url])%list;
     error_log :=
       (error_log s
        ++ (if has_error selectors url then [warning_line selectors url]
            else []))%list |}.

Definition after_pool (selectors : selectors_t) (urls : list string)
    (s : store) : store :=
  fold_left (after_page selectors) urls s.

(** The store once the tasks of a list of pages have run. *)
Definition log_requests (urls : list string) (s : store) : store :=
  fold_left (fun s url => log_request url s) urls s.

(** The futures of a list of pages. *)
Definition futures_of (selectors : selectors_t) (urls : list string)
    : dict future :=
  map (fun url => (url, Ok (page_outcome url selectors))) urls.

(** The store when the tasks are submitted: the locals are fresh, and the
    start page has been requested once when crawling is on. *)
Definition crawl_store (start_url : string) (crawl_same_domain : bool)
    (s : store) : store :=
  if crawl_same_domain then log_request start_url (init_store s)
  else init_store s.

(** The summary of a crawl of [n] rows of which [k] had a warning. *)
Definition summary (n k : nat) : string :=
  let result_msg :=
    "Successfully scraped " ++ str_int (Z.of_nat n) ++ " pages" in
  match k with
  | O => result_msg
  | S _ =>
      result_msg ++ nl ++ "Warnings: " ++ str_int (Z.of_nat k)
      ++ " pages had errors"
  end.

(** The selector engine returns for a rule: it does not raise. *)
Definition selects (soup : Soup) (item : string * dict string) : Prop :=
  exists elements, select_elements soup (snd item) = Ok elements.

(** The link an anchor contributes to [links]: its resolved href when
    that lies on [base_domain], nothing otherwise. *)
Definition same_host_link (url base_domain : string) (a_tag : Tag)
    : list string :=
  match urljoin url (tag_href a_tag) with
  | Ok full_url =>
      match urlparse full_url with
      | Ok parsed =>
          if (netloc parsed =? base_domain)%string then [full_url] else []
      | Raise _ => []
      end
  | Raise _ => []
  end.

(** A rule whose kind is neither of the two the engine knows. *)
Definition unknown_kind (selector_info : dict string) : Prop :=
  get_or selector_info "type" "css" <> "css"
  /\ get_or selector_info "type" "css" <> "xpath".

End Pipeline.

(** ** [main]

    The form gives [main] a start URL, one name, selector and kind per
    row, a page cap, the crawl switch and whether it was submitted.  The
    widgets only display; what the page shows in the end is a [screen]. *)

Record form_row : Type := {
  field_name : string;
  selector_value : string;
  selector_type : string
}.

Record form : Type := {
  form_start_url : string;
  form_rows : list form_row;
  form_max_pages : Z;
  form_crawl : bool;
  form_submitted : bool
}.

Inductive screen : Type :=
| Idle
| Results (df : list (dict string)) (message : string)
| Failure (details : string).

(** [selectors[field_name] = {type: selector_type, value: selector_value}] *)
Definition rule_of (row : form_row) : dict string :=
  [("type", selector_type row); ("value", selector_value row)].

Definition add_rule (selectors : selectors_t) (row : form_row) : selectors_t :=
  set selectors (field_name row) (rule_of row).

Definition form_selectors (rows : list form_row) : selectors_t :=
  fold_left add_rule rows [].

Section Main.

Context {W : World}.

(** [main()]: the sidebar reads [BeautifulSoup.__version__] before the
    form is drawn, inside the [try] that wraps the whole page. *)
Definition main (f : form) : M screen :=
  try_except
    (_ <- lift BeautifulSoup_version ;;
     let selectors := form_selectors (form_rows f) in
     if form_submitted f then
       shown <- scrape_website (form_start_url f) selectors
                  (form_max_pages f) (form_crawl f) ;;
       ret (Results (fst shown) (snd shown))
     else ret Idle)
    (fun e => ret (Failure e)).

End Main.

(** ** The two forms of an XPath-lite expression, as the specification
    words them *)

Fixpoint all_chars (p : ascii -> bool) (s : string) : bool :=
  match s with
  | EmptyString => true
  | String c r => p c && all_chars p r
  end.

(** What a string starts with lies outside the class [p]. *)
Definition stops (p : ascii -> bool) (s : string) : Prop :=
  match s with
  | EmptyString => True
  | String c _ => p c = false
  end.

(** One or more characters other than the double quote. *)
Definition value_str (s : string) : Prop :=
  s <> "" /\ all_chars Re.not_quote s = true.

Section Forms.

Context {W : World}.

(** A run of word characters. *)
Inductive word_run : string -> Prop :=
| word_run_nil : word_run ""
| word_run_cons (s : string) (cp : N) (c r : string) :
    Utf8.next s = Some (cp, c, r) ->
    Re.word_char unicode_isalnum cp = true ->
    word_run r ->
    word_run s.

(** One or more word characters. *)
Definition word_str (s : string) : Prop := s <> "" /\ word_run s.

(** What a string starts with is no word character. *)
Definition stops_word (s : string) : Prop :=
  match Utf8.next s with
  | Some (cp, _, _) => Re.word_char unicode_isalnum cp = false
  | None => True
  end.

(** [xpath] starts with [//tag[@attr=Qvalue Q]], Q the double quote. *)
Definition attr_form (xpath tag attr value : string) : Prop :=
  exists rest,
    xpath = "//" ++ tag ++ "[@" ++ attr ++ "=" ++ dq ++ value ++ dq ++ "]"
            ++ rest
    /\ word_str tag /\ word_str attr /\ value_str value.

(** [xpath] starts with [//tag], and [tag] is the whole run of word
    characters there. *)
Definition tag_form (xpath tag : string) : Prop :=
  exists rest,
    xpath = "//" ++ tag ++ rest
    /\ word_str tag
    /\ stops_word rest.

End Forms.

(** The same on names written in ASCII, where no table is consulted. *)

(** One or more word characters of ASCII. *)
Definition ascii_word_str (s : string) : Prop :=
  s <> "" /\ all_chars Re.ascii_word s = true.

Definition ascii_attr_form (xpath tag attr value : string) : Prop :=
  exists rest,
    xpath = "//" ++ tag ++ "[@" ++ attr ++ "=" ++ dq ++ value ++ dq ++ "]"
            ++ rest
    /\ ascii_word_str tag /\ ascii_word_str attr /\ value_str value.

(** ** A small site

    One implementation of [World], to run the pipeline on: three pages
    on one host, documents that are flat lists of elements, selectors that
    are tag names. *)

Module Site.

Record element : Type := {
  name : string;
  attrs : dict string;
  inner : string
}.

Definition document : Type := list element.

Definition anchor (target : string) : element :=
  {| name := "a"; attrs := [("href", target)]; inner := target |}.

Definition home : document :=
  [ {| name := "h1"; attrs := []; inner := "Hello" |};
    {| name := "div"; attrs := [("class", "content")]; inner := "Body" |};
    anchor "/a"; anchor "/b"; anchor "/c"; anchor "/d"; anchor "/e";
    anchor "/a"; anchor "http://other.test/x" ].

Definition leaf : document :=
  [ {| name := "h1"; attrs := []; inner := "Leaf" |} ].

Definition fetch (url : string) : result response :=
  if (url =? "http://site.test/")%string then
    Ok {| status_code := 200; text := "home" |}
  else if (url =? "http://site.test/a")%string then
    Ok {| status_code := 200; text := "leaf" |}
  else if (url =? "http://site.test/e")%string then
    Ok {| status_code := 404; text := "" |}
  else Raise "timed out".

Definition parse (body : string) : result document :=
  if (body =? "home")%string then Ok home
  else if (body =? "leaf")%string then Ok leaf
  else Ok [].

Definition has_attrs (want : dict string) (e : element) : bool :=
  forallb (fun kv => match Py.get (attrs e) (fst kv) with
                     | Some v => (v =? snd kv)%string
                     | None => false
                     end) want.

Definition select (doc : document) (sel : string) : result (list element) :=
  if (sel =? "")%string then Raise "Expected a selector"
  else Ok (filter (fun e => (name e =? sel)%string) doc).

Definition find_all (doc : document) (tag : string) (want : dict string)
    : result (list element) :=
  Ok (filter (fun e => (name e =? tag)%string && has_attrs want e) doc).

Definition find_all_a_href (doc : document) : result (list element) :=
  Ok (filter (fun e => (name e =? "a")%string
                       && match Py.get (attrs e) "href" with
                          | Some _ => true
                          | None => false
                          end) doc).

Definition href (e : element) : string := get_or (attrs e) "href" "".

(** Only [http://host/path] has a scheme and a host here. *)
Definition parse_url (url : string) : result parse_result :=
  match Re.lit "http://" url with
  | Some r =>
      Ok {| scheme := "http";
            netloc := fst (Re.span (fun c => negb (Ascii.eqb c "/")) r) |}
  | None => Ok {| scheme := ""; netloc := "" |}
  end.

(** An excerpt of the table of [str.isalnum()]: the whole of Latin-1,
    and the letters of Latin Extended, Greek, Cyrillic, the kana and the
    first CJK ideographs. *)
Definition between (lo hi cp : N) : bool := ((lo <=? cp) && (cp <=? hi))%N.

Definition isalnum (cp : N) : bool :=
  (cp =? 170)%N || between 178 179 cp || (cp =? 181)%N
  || between 185 186 cp || between 188 190 cp
  || between 192 214 cp || between 216 246 cp || between 248 591 cp
  || between 913 929 cp || between 931 969 cp
  || between 1024 1153 cp
  || between 12353 12438 cp || between 12449 12538 cp
  || between 19968 40869 cp.

(** The class [BeautifulSoup] has no attribute [__version__]. *)
Definition no_version : string :=
  "type object 'BeautifulSoup' has no attribute '__version__'".

(** An href is a whole URL or a path from the root of the host. *)
Definition join (base target : string) : result string :=
  match Re.lit "http://" target with
  | Some _ => Ok target
  | None =>
      match parse_url base with
      | Ok parsed => Ok ("http://" ++ netloc parsed ++ target)
      | Raise e => Raise e
      end
  end.

Definition world : World :=
  {| Soup := document;
     Tag := element;
     unicode_isalnum := isalnum;
     BeautifulSoup_version := Raise no_version;
     requests_get := fetch;
     BeautifulSoup := parse;
     soup_select := select;
     soup_find_all := find_all;
     soup_find_all_a_href := find_all_a_href;
     tag_href := href;
     get_text_strip := inner;
     urlparse := parse_url;
     urljoin := join;
     set_list := fun l => rev (nodup string_dec l);
     set_list_NoDup := fun l => NoDup_rev (NoDup_nodup string_dec l);
     set_list_In := fun l x =>
       iff_trans (iff_sym (in_rev (nodup string_dec l) x))
                 (nodup_In string_dec l x);
     as_completed := @rev string;
     as_completed_perm := fun l => Permutation_sym (Permutation_rev l) |}.

Definition start : string := "http://site.test/".
Definition page_a : string := "http://site.test/a".
Definition page_e : string := "http://site.test/e".

Definition rules : selectors_t :=
  [ ("title", [("type", "css"); ("value", "h1")]);
    ("body", [("type", "xpath");
              ("value", "//div[@class=" ++ dq ++ "content" ++ dq ++ "]")]);
    ("price", [("type", "regex"); ("value", "[0-9]+")]) ].

End Site.

(** The same site behind a parser that gives up on every page. *)

Module Outage.

Definition world : World :=
  {| Soup := Site.document;
     Tag := Site.element;
     unicode_isalnum := Site.isalnum;
     BeautifulSoup_version := Raise Site.no_version;
     requests_get := Site.fetch;
     BeautifulSoup := fun _ => Raise "malformed start tag";
     soup_select := Site.select;
     soup_find_all := Site.find_all;
     soup_find_all_a_href := Site.find_all_a_href;
     tag_href := Site.href;
     get_text_strip := Site.inner;
     urlparse := Site.parse_url;
     urljoin := Site.join;
     set_list := fun l => rev (nodup string_dec l);
     set_list_NoDup := fun l => NoDup_rev (NoDup_nodup string_dec l);
     set_list_In := fun l x =>
       iff_trans (iff_sym (in_rev (nodup string_dec l) x))
                 (nodup_In string_dec l x);
     as_completed := @rev string;
     as_completed_perm := fun l => Permutation_sym (Permutation_rev l) |}.

End Outage.

(** * Properties *)

(** ** Strings and the scanner *)

Lemma truthy_true (s : string) : truthy s = true <-> s <> "".
Proof. destruct s; simpl; split; congruence. Qed.

Lemma truthy_false (s : string) : truthy s = false <-> s = "".
Proof. destruct s; simpl; split; congruence. Qed.

Lemma string_app_assoc (a b c : string) : (a ++ b) ++ c = a ++ b ++ c.
Proof. induction a as [|x a IH]; simpl; [reflexivity|now rewrite IH]. Qed.

Lemma string_app_nil_r (a : string) : a ++ "" = a.
Proof. induction a as [|x a IH]; simpl; [reflexivity|now rewrite IH]. Qed.

Lemma string_app_length (a b : string) :
  String.length (a ++ b) = (String.length a + String.length b)%nat.
Proof. induction a as [|x a IH]; simpl; [reflexivity|now rewrite IH]. Qed.

Lemma lit_app (p s : string) : Re.lit p (p ++ s) = Some s.
Proof.
  induction p as [|c p IH]; simpl; [reflexivity|].
  now rewrite Ascii.eqb_refl.
Qed.

Lemma lit_inv (p s r : string) : Re.lit p s = Some r -> s = p ++ r.
Proof.
  revert s; induction p as [|c p IH]; simpl; intros s H.
  - congruence.
  - destruct s as [|d s]; [discriminate|].
    destruct (Ascii.eqb c d) eqn:E; [|discriminate].
    apply Ascii.eqb_eq in E; subst d. now rewrite (IH _ H).
Qed.

Lemma span_app (p : ascii -> bool) (a rest : string) :
  all_chars p a = true -> stops p rest -> Re.span p (a ++ rest) = (a, rest).
Proof.
  induction a as [|c a IH]; simpl; intros Ha Hr.
  - destruct rest as [|d rest]; simpl in *; [reflexivity|now rewrite Hr].
  - apply andb_true_iff in Ha as [Hc Ha]. now rewrite Hc, IH.
Qed.

Lemma span_inv (p : ascii -> bool) (s a b : string) :
  Re.span p s = (a, b) -> s = a ++ b /\ all_chars p a = true /\ stops p b.
Proof.
  revert a b; induction s as [|c s IH]; simpl; intros a b H.
  - inversion H; subst; simpl; auto.
  - destruct (p c) eqn:Hc.
    + destruct (Re.span p s) as [a' b'] eqn:E. inversion H; subst.
      destruct (IH _ _ eq_refl) as (-> & Ha & Hb). simpl. rewrite Hc. auto.
    + inversion H; subst; simpl; auto.
Qed.

(** *** Reading one character *)

Lemma next_split (s : string) (cp : N) (c r : string) :
  Utf8.next s = Some (cp, c, r) -> s = c ++ r /\ c <> "".
Proof.
  unfold Utf8.next. destruct s as [|b0 s0]; [discriminate|].
  destruct (Utf8.width b0) as [|[|[|[|[|n]]]]]; try discriminate.
  - intros H; inversion H; subst. split; [reflexivity|discriminate].
  - destruct s0 as [|b1 s1]; [discriminate|].
    destruct (Utf8.cont b1); [|discriminate].
    intros H; inversion H; subst. split; [reflexivity|discriminate].
  - destruct s0 as [|b1 [|b2 s2]]; try discriminate.
    destruct (Utf8.cont b1 && Utf8.cont b2); [|discriminate].
    intros H; inversion H; subst. split; [reflexivity|discriminate].
  - destruct s0 as [|b1 [|b2 [|b3 s3]]]; try discriminate.
    destruct (Utf8.cont b1 && Utf8.cont b2 && Utf8.cont b3);
      [|discriminate].
    intros H; inversion H; subst. split; [reflexivity|discriminate].
Qed.

(** The character read depends on its own bytes only. *)
Lemma next_prefix (s : string) (cp : N) (c r : string) :
  Utf8.next s = Some (cp, c, r) ->
  forall t, Utf8.next (c ++ t) = Some (cp, c, t).
Proof.
  unfold Utf8.next. destruct s as [|b0 s0]; [discriminate|].
  destruct (Utf8.width b0) as [|[|[|[|[|n]]]]] eqn:Ew; try discriminate.
  - intros H t; inversion H; subst. simpl. now rewrite Ew.
  - destruct s0 as [|b1 s1]; [discriminate|].
    destruct (Utf8.cont b1) eqn:E1; [|discriminate].
    intros H t; inversion H; subst. simpl. now rewrite Ew, E1.
  - destruct s0 as [|b1 [|b2 s2]]; try discriminate.
    destruct (Utf8.cont b1 && Utf8.cont b2) eqn:E; [|discriminate].
    intros H t; inversion H; subst. simpl. now rewrite Ew, E.
  - destruct s0 as [|b1 [|b2 [|b3 s3]]]; try discriminate.
    destruct (Utf8.cont b1 && Utf8.cont b2 && Utf8.cont b3) eqn:E;
      [|discriminate].
    intros H t; inversion H; subst. simpl. now rewrite Ew, E.
Qed.

Lemma next_app (s : string) (cp : N) (c r : string) :
  Utf8.next s = Some (cp, c, r) ->
  forall t, Utf8.next (s ++ t) = Some (cp, c, r ++ t).
Proof.
  intros H t. destruct (next_split _ _ _ _ H) as [-> _].
  rewrite string_app_assoc. exact (next_prefix _ _ _ _ H (r ++ t)).
Qed.

Lemma next_shorter (s : string) (cp : N) (c r : string) :
  Utf8.next s = Some (cp, c, r) -> (String.length r < String.length s)%nat.
Proof.
  intros H. destruct (next_split _ _ _ _ H) as [-> Hc].
  rewrite string_app_length. destruct c; [contradiction|simpl; lia].
Qed.

(** A byte of ASCII is a character of its own. *)
Lemma next_ascii (b : ascii) (s : string) :
  (N_of_ascii b <? 128)%N = true ->
  Utf8.next (String b s) = Some (N_of_ascii b, String b "", s).
Proof.
  intros H. unfold Utf8.next, Utf8.width. now rewrite H.
Qed.

Lemma ascii_word_low (b : ascii) :
  Re.ascii_word b = true -> (N_of_ascii b <? 128)%N = true.
Proof.
  destruct b as [[] [] [] [] [] [] [] []]; intros H;
    (reflexivity || discriminate H).
Qed.

Section ScannerFacts.

Context {W : World}.

Local Abbreviation word := (Re.word_char unicode_isalnum).
Local Abbreviation span_word := (Re.span_word unicode_isalnum).

Lemma word_char_ascii (b : ascii) :
  (N_of_ascii b <? 128)%N = true -> word (N_of_ascii b) = Re.ascii_word b.
Proof.
  intros H. unfold Re.word_char. now rewrite H, ascii_N_embedding.
Qed.

(** The scanner reads one character at a time. *)
Lemma span_word_step (s : string) :
  span_word s
  = match Utf8.next s with
    | Some (cp, c, r) =>
        if word cp then let (a, b) := span_word r in (c ++ a, b)
        else ("", s)
    | None => ("", s)
    end.
Proof.
  destruct s as [|b0 s0]; [reflexivity|].
  cbn [Re.span_word Utf8.next].
  destruct (Utf8.width b0) as [|[|[|[|[|n]]]]]; try reflexivity.
  - destruct s0 as [|b1 s1]; [reflexivity|].
    destruct (Utf8.cont b1); reflexivity.
  - destruct s0 as [|b1 [|b2 s2]]; try reflexivity.
    destruct (Utf8.cont b1 && Utf8.cont b2); reflexivity.
  - destruct s0 as [|b1 [|b2 [|b3 s3]]]; try reflexivity.
    destruct (Utf8.cont b1 && Utf8.cont b2 && Utf8.cont b3); reflexivity.
Qed.

Lemma span_word_stops (rest : string) :
  stops_word rest -> span_word rest = ("", rest).
Proof.
  unfold stops_word. intros H. rewrite span_word_step.
  destruct (Utf8.next rest) as [[[cp c] r]|]; [|reflexivity].
  now rewrite H.
Qed.

Lemma span_word_app (a rest : string) :
  word_run a -> stops_word rest -> span_word (a ++ rest) = (a, rest).
Proof.
  intros Ha Hr. induction Ha as [|s cp c r Hn Hw _ IH]; simpl.
  - now apply span_word_stops.
  - rewrite span_word_step, (next_app _ _ _ _ Hn), Hw, IH.
    now destruct (next_split _ _ _ _ Hn) as [-> _].
Qed.

Lemma span_word_inv (s a b : string) :
  span_word s = (a, b) -> s = a ++ b /\ word_run a /\ stops_word b.
Proof.
  remember (String.length s) as n eqn:En.
  revert s a b En. induction n as [n IH] using lt_wf_ind.
  intros s a b En. rewrite span_word_step.
  destruct (Utf8.next s) as [[[cp c] r]|] eqn:Hn.
  - destruct (word cp) eqn:Hw.
    + destruct (span_word r) as [a' b'] eqn:Er. intros H; inversion H; subst.
      pose proof (next_shorter _ _ _ _ Hn) as Hlt.
      destruct (IH _ Hlt r a' b eq_refl Er) as (-> & Ha' & Hb).
      destruct (next_split _ _ _ _ Hn) as [-> _].
      split; [now rewrite string_app_assoc|]. split; [|exact Hb].
      exact (word_run_cons _ cp c a' (next_prefix _ _ _ _ Hn a') Hw Ha').
    + intros H; inversion H; subst. split; [reflexivity|].
      split; [constructor|]. unfold stops_word. now rewrite Hn.
  - intros H; inversion H; subst. split; [reflexivity|].
    split; [constructor|]. unfold stops_word. now rewrite Hn.
Qed.

(** Names written in ASCII are runs of word characters, and a character
    of ASCII that is no word character ends a run. *)
Lemma ascii_word_run (s : string) :
  all_chars Re.ascii_word s = true -> word_run s.
Proof.
  induction s as [|b s IH]; simpl; intros H; [constructor|].
  apply andb_true_iff in H as [Hb Hs].
  pose proof (ascii_word_low _ Hb) as Hlow.
  apply (word_run_cons _ _ _ _ (next_ascii b s Hlow)); [|auto].
  now rewrite word_char_ascii.
Qed.

Lemma ascii_word_str_word_str (s : string) : ascii_word_str s -> word_str s.
Proof. intros [Hne Hs]. split; [exact Hne|now apply ascii_word_run]. Qed.

Lemma ascii_stops_word (b : ascii) (s : string) :
  (N_of_ascii b <? 128)%N = true -> Re.ascii_word b = false ->
  stops_word (String b s).
Proof.
  intros Hlow Hb. unfold stops_word.
  now rewrite (next_ascii b s Hlow), word_char_ascii.
Qed.

Lemma word_str_truthy (s : string) : word_str s -> truthy s = true.
Proof. intros [H _]. now apply truthy_true. Qed.

Lemma value_str_truthy (s : string) : value_str s -> truthy s = true.
Proof. intros [H _]. now apply truthy_true. Qed.

End ScannerFacts.

(** ** [parse_xpath] *)

Section PatternFacts.

Context {W : World}.

Lemma attr_group_app (attr value rest : string) :
  word_str attr -> value_str value ->
  Re.attr_group unicode_isalnum
    ("[@" ++ attr ++ "=" ++ dq ++ value ++ dq ++ "]" ++ rest)
  = Some (attr, value).
Proof.
  intros [Hne Hw] [Hnv Hv]. apply truthy_true in Hne, Hnv.
  unfold Re.attr_group, dq, dquote. cbn [append Re.lit Ascii.eqb Bool.eqb].
  rewrite (span_word_app attr)
    by (auto; apply ascii_stops_word; reflexivity).
  rewrite Hne. cbn [append Re.lit Ascii.eqb Bool.eqb].
  rewrite (span_app Re.not_quote value) by (auto; reflexivity).
  rewrite Hnv. reflexivity.
Qed.

Lemma attr_group_inv (s attr value : string) :
  Re.attr_group unicode_isalnum s = Some (attr, value) ->
  word_str attr /\ value_str value
  /\ exists rest,
       s = "[@" ++ attr ++ "=" ++ dq ++ value ++ dq ++ "]" ++ rest.
Proof.
  unfold Re.attr_group. intros H.
  destruct (Re.lit "[@" s) as [s1|] eqn:E1; [|discriminate].
  destruct (Re.span_word unicode_isalnum s1) as [a s2] eqn:E2.
  destruct (truthy a) eqn:Ta; [|discriminate].
  destruct (Re.lit ("=" ++ dq) s2) as [s3|] eqn:E3; [|discriminate].
  destruct (Re.span Re.not_quote s3) as [v s4] eqn:E4.
  destruct (truthy v) eqn:Tv; [|discriminate].
  destruct (Re.lit (dq ++ "]") s4) as [s5|] eqn:E5; [|discriminate].
  inversion H; subst a v.
  apply lit_inv in E1, E3, E5.
  apply span_word_inv in E2 as (E2 & Wa & _).
  apply span_inv in E4 as (E4 & Wv & _).
  apply truthy_true in Ta, Tv.
  repeat split; auto.
  exists s5. subst s s1 s2 s3 s4. reflexivity.
Qed.

Lemma match_xpath_tag_form (xpath tag : string) :
  tag_form xpath tag ->
  exists m, Re.match_xpath unicode_isalnum xpath = Some m
            /\ Re.group1 m = tag
            /\ (Re.group2 m = None <-> Re.group3 m = None)
            /\ forall attr value,
                 Re.group2 m = Some attr -> Re.group3 m = Some value ->
                 attr_form xpath tag attr value.
Proof.
  intros (rest & -> & [Hne Hw] & Hstop). unfold Re.match_xpath.
  rewrite lit_app, (span_word_app tag rest) by assumption.
  pose proof Hne as Ht. apply truthy_true in Ht; rewrite Ht.
  destruct (Re.attr_group unicode_isalnum rest) as [[a v]|] eqn:E;
    eexists; split; try reflexivity; simpl; repeat split; try congruence.
  intros attr value Ha Hv. inversion Ha; inversion Hv; subst.
  apply attr_group_inv in E as (Wa & Wv & rest' & ->).
  exists rest'. repeat split; auto; apply Wa || apply Wv.
Qed.

Lemma match_xpath_inv (xpath : string) (m : Re.match_object) :
  Re.match_xpath unicode_isalnum xpath = Some m ->
  tag_form xpath (Re.group1 m).
Proof.
  unfold Re.match_xpath. intros H.
  destruct (Re.lit "//" xpath) as [s1|] eqn:E1; [|discriminate].
  destruct (Re.span_word unicode_isalnum s1) as [tag s2] eqn:E2.
  destruct (truthy tag) eqn:Tt; [|discriminate].
  apply lit_inv in E1. apply span_word_inv in E2 as (E2 & Wt & St).
  apply truthy_true in Tt.
  assert (Re.group1 m = tag) as ->
    by (destruct (Re.attr_group unicode_isalnum s2) as [[a v]|];
        inversion H; reflexivity).
  exists s2. subst. repeat split; auto.
Qed.

Lemma match_xpath_groups (xpath : string) (m : Re.match_object) :
  Re.match_xpath unicode_isalnum xpath = Some m ->
  (Re.group2 m = None /\ Re.group3 m = None)
  \/ exists attr value,
       Re.group2 m = Some attr /\ Re.group3 m = Some value
       /\ word_str attr /\ value_str value.
Proof.
  unfold Re.match_xpath. intros H.
  destruct (Re.lit "//" xpath) as [s1|]; [|discriminate].
  destruct (Re.span_word unicode_isalnum s1) as [tag s2].
  destruct (truthy tag); [|discriminate].
  destruct (Re.attr_group unicode_isalnum s2) as [[a v]|] eqn:E;
    inversion H; subst; simpl.
  - right. exists a, v. apply attr_group_inv in E as (Wa & Wv & _). auto.
  - left. auto.
Qed.

Lemma parse_xpath_attr_form (xpath tag attr value : string) :
  attr_form xpath tag attr value ->
  parse_xpath xpath = (tag, [(attr, value)]).
Proof.
  intros (rest & -> & Wt & Wa & Wv).
  unfold parse_xpath, Re.match_xpath.
  rewrite lit_app, (span_word_app tag)
    by (apply Wt || (apply ascii_stops_word; reflexivity)).
  rewrite (word_str_truthy _ Wt), (attr_group_app attr value rest Wa Wv).
  simpl. now rewrite (word_str_truthy _ Wa), (value_str_truthy _ Wv).
Qed.

Lemma parse_xpath_no_slashes (xpath : string) :
  Re.lit "//" xpath = None -> parse_xpath xpath = ("div", []).
Proof.
  intros H. unfold parse_xpath, Re.match_xpath. now rewrite H.
Qed.

Lemma ascii_attr_form_attr_form (xpath tag attr value : string) :
  ascii_attr_form xpath tag attr value -> attr_form xpath tag attr value.
Proof.
  intros (rest & E & Wt & Wa & Wv). exists rest.
  split; [exact E|].
  split; [exact (ascii_word_str_word_str _ Wt)|].
  split; [exact (ascii_word_str_word_str _ Wa)|exact Wv].
Qed.

(** C5. [parse_xpath] is a total function.  On an expression that starts
    with the attribute form it returns the tag and the one-entry filter;
    on one that starts with the tag form only, the tag and the empty
    filter; on every other expression, [div] and the empty filter.  The
    names are runs of word characters in the sense of [\w] on a str:
    letters and digits of every script, and the underscore. *)
Theorem parse_xpath_forms (xpath : string) :
  (forall tag attr value,
      attr_form xpath tag attr value ->
      parse_xpath xpath = (tag, [(attr, value)]))
  /\ (forall tag,
        tag_form xpath tag ->
        (forall attr value, ~ attr_form xpath tag attr value) ->
        parse_xpath xpath = (tag, []))
  /\ ((forall tag, ~ tag_form xpath tag) ->
      (forall tag attr value, ~ attr_form xpath tag attr value) ->
      parse_xpath xpath = ("div", [])).
Proof.
  split; [|split].
  - intros tag attr value (rest & -> & [Hne Hw] & Wa & Wv).
    unfold parse_xpath, Re.match_xpath.
    rewrite lit_app, (span_word_app tag)
      by (auto; apply ascii_stops_word; reflexivity).
    apply truthy_true in Hne; rewrite Hne.
    rewrite (attr_group_app attr value rest Wa Wv). simpl.
    destruct Wa as [Na _], Wv as [Nv _].
    apply truthy_true in Na, Nv. now rewrite Na, Nv.
  - intros tag Ht Hno.
    destruct (match_xpath_tag_form _ _ Ht) as (m & Hm & G1 & G23 & Hattr).
    unfold parse_xpath. rewrite Hm, G1.
    destruct (Re.group2 m) as [a|] eqn:E2, (Re.group3 m) as [v|] eqn:E3;
      simpl; try reflexivity.
    + exfalso. exact (Hno a v (Hattr a v eq_refl eq_refl)).
    + now rewrite andb_false_r.
  - intros Hno _. unfold parse_xpath.
    destruct (Re.match_xpath unicode_isalnum xpath) as [m|] eqn:Hm;
      [|reflexivity].
    exfalso. exact (Hno _ (match_xpath_inv _ _ Hm)).
Qed.

End PatternFacts.

(** Reading off a run of word characters, character by character. *)
Ltac read_word_run :=
  repeat (eapply word_run_cons; [reflexivity|reflexivity|]);
  apply word_run_nil.

Ltac read_word_str := split; [discriminate|read_word_run].

(** C5 at work: one expression of each form, and names beyond ASCII. *)
Lemma parse_xpath_forms_witness :
  parse_xpath (W := Site.world)
    ("//div[@class=" ++ dq ++ "content" ++ dq ++ "]")
  = ("div", [("class", "content")])
  /\ parse_xpath (W := Site.world)
       ("//café[@clás=" ++ dq ++ "x" ++ dq ++ "]")
     = ("café", [("clás", "x")])
  /\ parse_xpath (W := Site.world) "//é" = ("é", [])
  /\ parse_xpath (W := Site.world) "@@garbage" = ("div", []).
Proof.
  split; [|split; [|split]].
  - apply (proj1 (parse_xpath_forms (W := Site.world) _)).
    exists "". split; [reflexivity|].
    split; [read_word_str|]. split; [read_word_str|].
    split; [discriminate|reflexivity].
  - apply (proj1 (parse_xpath_forms (W := Site.world) _)).
    exists "". split; [reflexivity|].
    split; [read_word_str|]. split; [read_word_str|].
    split; [discriminate|reflexivity].
  - apply (proj1 (proj2 (parse_xpath_forms (W := Site.world) _))).
    + exists "". split; [reflexivity|]. split; [read_word_str|exact I].
    + intros attr value (rest & E & _). discriminate E.
  - apply (proj2 (proj2 (parse_xpath_forms (W := Site.world) _))).
    + intros tag (rest & E & _). discriminate E.
    + intros tag attr value (rest & E & _). discriminate E.
Defined.

Example parse_xpath_prefix :
  parse_xpath (W := Site.world) "//span/div" = ("span", []).
Proof. reflexivity. Qed.

(** ** Dicts, slices and the worklist *)

Lemma get_set_same {V : Type} (d : dict V) (k : string) (v : V) :
  get (set d k v) k = Some v.
Proof.
  induction d as [|[k' v'] d IH]; simpl.
  - now rewrite String.eqb_refl.
  - destruct (k' =? k)%string eqn:E; simpl; rewrite E; auto.
Qed.

Lemma get_set_other {V : Type} (d : dict V) (k k' : string) (v : V) :
  k <> k' -> get (set d k v) k' = get d k'.
Proof.
  intros Hne. induction d as [|[k0 v0] d IH]; simpl.
  - destruct (k =? k')%string eqn:E; [apply String.eqb_eq in E; contradiction|].
    reflexivity.
  - destruct (k0 =? k)%string eqn:E; simpl.
    + apply String.eqb_eq in E; subst k0.
      destruct (k =? k')%string eqn:E'; auto.
      apply String.eqb_eq in E'; contradiction.
    + now rewrite IH.
Qed.

Lemma keys_set_In {V : Type} (d : dict V) (k : string) (v : V) (x : string) :
  In x (keys (set d k v)) <-> x = k \/ In x (keys d).
Proof.
  unfold keys. induction d as [|[k' v'] d IH]; simpl.
  - intuition.
  - destruct (k' =? k)%string eqn:E; simpl.
    + apply String.eqb_eq in E; subst. intuition.
    + rewrite IH. intuition.
Qed.

Lemma keys_set_NoDup {V : Type} (d : dict V) (k : string) (v : V) :
  NoDup (keys d) -> NoDup (keys (set d k v)).
Proof.
  unfold keys. induction d as [|[k' v'] d IH]; simpl; intros H.
  - constructor; [intros []|constructor].
  - destruct (k' =? k)%string eqn:E; simpl; [assumption|].
    inversion H; subst. constructor; [|auto].
    intros Hin. apply (keys_set_In d k v k') in Hin as [->|Hin].
    + now rewrite String.eqb_refl in E.
    + contradiction.
Qed.

Lemma get_In_keys {V : Type} (d : dict V) (k : string) (v : V) :
  get d k = Some v -> In k (keys d).
Proof.
  induction d as [|[k' v'] d IH]; simpl; [discriminate|].
  destruct (k' =? k)%string eqn:E; [apply String.eqb_eq in E; auto|auto].
Qed.

Lemma mem_In (x : string) (l : list string) : mem x l = true <-> In x l.
Proof.
  unfold mem. rewrite existsb_exists. split.
  - intros (y & Hy & E). apply String.eqb_eq in E. now subst.
  - intros H. exists x. split; [assumption|apply String.eqb_refl].
Qed.

Lemma mem_not_In (x : string) (l : list string) : mem x l = false <-> ~ In x l.
Proof.
  rewrite <- mem_In. destruct (mem x l); split; congruence.
Qed.

Lemma firstn_NoDup {A : Type} (n : nat) (l : list A) :
  NoDup l -> NoDup (firstn n l).
Proof.
  intros H. rewrite <- (firstn_skipn n l) in H.
  exact (NoDup_app_remove_r _ _ H).
Qed.

Lemma slice_to_NoDup {A : Type} (l : list A) (n : Z) :
  NoDup l -> NoDup (slice_to l n).
Proof.
  unfold slice_to. destruct (0 <=? n)%Z; apply firstn_NoDup.
Qed.

Lemma slice_to_length {A : Type} (l : list A) (n : Z) :
  (0 <= n)%Z -> (Z.of_nat (length (slice_to l n)) <= n)%Z.
Proof.
  intros Hn. unfold slice_to.
  destruct (0 <=? n)%Z eqn:E; [|apply Z.leb_gt in E; lia].
  rewrite length_firstn. lia.
Qed.

Lemma slice_to_whole {A : Type} (l : list A) (n : Z) :
  (Z.of_nat (length l) <= n)%Z -> slice_to l n = l.
Proof.
  intros Hn. unfold slice_to.
  destruct (0 <=? n)%Z eqn:E; [|apply Z.leb_gt in E; lia].
  apply firstn_all2. lia.
Qed.

Lemma add_url_fold_NoDup (links acc : list string) :
  NoDup acc -> NoDup (fold_left add_url links acc).
Proof.
  revert acc; induction links as [|x links IH]; simpl; intros acc H; auto.
  apply IH. unfold add_url. destruct (mem x acc) eqn:E; auto.
  apply mem_not_In in E. apply NoDup_app; auto.
  - constructor; [intros []|constructor].
  - intros y Hy [<-|[]]. contradiction.
Qed.

(** The loop that appends the new links, on links that are distinct. *)
Lemma add_url_fold (links acc : list string) :
  NoDup links ->
  fold_left add_url links acc
  = (acc ++ filter (fun link => negb (mem link acc)) links)%list.
Proof.
  revert acc; induction links as [|x links IH]; simpl; intros acc H.
  - now rewrite app_nil_r.
  - inversion H as [|? ? Hx Hl]; subst. rewrite (IH _ Hl).
    unfold add_url. destruct (mem x acc) eqn:E; simpl; [reflexivity|].
    rewrite <- app_assoc. simpl. do 2 f_equal.
    apply filter_ext_in. intros y Hy. f_equal.
    unfold mem. rewrite existsb_app. simpl.
    destruct (String.eqb_spec y x); [subst; contradiction|].
    now rewrite !orb_false_r.
Qed.

Lemma filter_Permutation {A : Type} (f : A -> bool) (l l' : list A) :
  Permutation l l' -> Permutation (filter f l) (filter f l').
Proof.
  induction 1 as [|x l l' _ IH|x y l|l l' l'' _ IH1 _ IH2]; simpl.
  - constructor.
  - destruct (f x); [constructor|]; assumption.
  - destruct (f x), (f y); try constructor; apply Permutation_refl.
  - exact (Permutation_trans IH1 IH2).
Qed.

Lemma filter_nil_iff {A : Type} (f : A -> bool) (l : list A) :
  filter f l = [] <-> forall x, In x l -> f x = false.
Proof.
  induction l as [|y l IH]; simpl.
  - split; [intros _ x []|reflexivity].
  - destruct (f y) eqn:E; split.
    + discriminate.
    + intros H. rewrite (H y (or_introl eq_refl)) in E. discriminate.
    + intros H x [<-|Hin]; [assumption|]. now apply IH.
    + intros H. apply IH. intros x Hin. apply H. now right.
Qed.

(** ** Computations that do not touch the store *)

Lemma steady_bind {A B : Type} (m : M A) (f : A -> M B) (r : result A) :
  steady m r -> (forall a, exists r', steady (f a) r') ->
  exists r', steady (bind m f) r'.
Proof.
  intros Hm Hf. destruct r as [a|e].
  - destruct (Hf a) as [r' Hr']. exists r'. intros s.
    unfold bind. now rewrite Hm.
  - exists (Raise e). intros s. unfold bind. now rewrite Hm.
Qed.

Lemma steady_foldM {A B : Type} (f : B -> A -> M B) (l : list A) :
  (forall b x, exists r, steady (f b x) r) ->
  forall b, exists r, steady (foldM f l b) r.
Proof.
  intros Hf. induction l as [|x l IH]; intros b; simpl.
  - exists (Ok b). intros s. reflexivity.
  - destruct (Hf b x) as [r Hr]. exact (steady_bind _ _ r Hr IH).
Qed.

Section PipelineFacts.

Context {W : World}.

(** *** [is_valid_url] *)

Lemma is_valid_url_well_formed (url : string) :
  is_valid_url url = true <-> well_formed url.
Proof.
  unfold is_valid_url, well_formed. split.
  - destruct (urlparse url) as [p|e]; [|discriminate].
    intros H. apply andb_true_iff in H as [Hs Hn].
    apply truthy_true in Hs, Hn. now exists p.
  - intros (p & -> & Hs & Hn). apply truthy_true in Hs, Hn.
    now rewrite Hs, Hn.
Qed.

(** *** [get_all_links] *)

Lemma add_link_run (url base_domain : string) (links : list string)
    (a_tag : Tag) :
  steady (add_link url base_domain links a_tag)
    match urljoin url (tag_href a_tag) with
    | Ok full_url =>
        match urlparse full_url with
        | Ok parsed =>
            Ok (if (netloc parsed =? base_domain)%string
                then (links ++ [full_url])%list else links)
        | Raise e => Raise e
        end
    | Raise e => Raise e
    end.
Proof.
  intros s. unfold add_link, bind, lift, ret.
  destruct (urljoin url (tag_href a_tag)) as [full|e]; [|reflexivity].
  destruct (urlparse full) as [p|e]; [|reflexivity].
  destruct (netloc p =? base_domain)%string; reflexivity.
Qed.

Lemma links_loop (url base_domain : string) (a_tags : list Tag) :
  forall links,
  exists r,
    steady (foldM (add_link url base_domain) a_tags links) r
    /\ match r with
       | Ok links' =>
           Forall (resolves url) a_tags
           /\ forall link, In link links' ->
                In link links
                \/ exists a_tag parsed,
                     In a_tag a_tags
                     /\ urljoin url (tag_href a_tag) = Ok link
                     /\ urlparse link = Ok parsed
                     /\ netloc parsed = base_domain
       | Raise _ => ~ Forall (resolves url) a_tags
       end.
Proof.
  induction a_tags as [|a a_tags IH]; intros links; simpl.
  - exists (Ok links). split; [intros s; reflexivity|]. split; auto.
  - pose proof (add_link_run url base_domain links a) as Hstep.
    destruct (urljoin url (tag_href a)) as [full|e] eqn:Ej.
    2:{ exists (Raise e). split; [intros s; unfold bind; now rewrite Hstep|].
        intros H. inversion H as [|? ? (f & p & Hf & _) _]; congruence. }
    destruct (urlparse full) as [p|e] eqn:Ep.
    2:{ exists (Raise e). split; [intros s; unfold bind; now rewrite Hstep|].
        intros H. inversion H as [|? ? (f & p & Hf & Hp) _]; congruence. }
    assert (Ha : resolves url a) by (exists full, p; auto).
    destruct (netloc p =? base_domain)%string eqn:En.
    + destruct (IH (links ++ [full])%list) as (r & Hr & Hprop).
      exists r. split; [intros s; unfold bind; rewrite Hstep; apply Hr|].
      destruct r as [links'|e]; [|intros H; inversion H; auto].
      destruct Hprop as [Hall Hin]. split; [constructor; auto|].
      intros link Hl. destruct (Hin link Hl) as [Hacc|(a' & p' & ? & ?)].
      * apply in_app_or in Hacc as [Hacc|[<-|[]]]; [auto|].
        right. exists a, p. apply String.eqb_eq in En. auto.
      * right. exists a', p'. intuition.
    + destruct (IH links) as (r & Hr & Hprop).
      exists r. split; [intros s; unfold bind; rewrite Hstep; apply Hr|].
      destruct r as [links'|e]; [|intros H; inversion H; auto].
      destruct Hprop as [Hall Hin]. split; [constructor; auto|].
      intros link Hl. destruct (Hin link Hl) as [Hacc|(a' & p' & ? & ?)];
        [auto|]. right. exists a', p'. intuition.
Qed.

Lemma get_all_links_spec (url base_domain : string) :
  exists links,
    (forall s,
        get_all_links url base_domain s = (log_request url s, Ok links))
    /\ NoDup links
    /\ (forall link, In link links ->
          exists a_tags a_tag parsed,
            page_anchors url = Some a_tags
            /\ In a_tag a_tags
            /\ urljoin url (tag_href a_tag) = Ok link
            /\ urlparse link = Ok parsed
            /\ netloc parsed = base_domain)
    /\ (page_anchors url = None -> links = [])
    /\ (forall a_tags,
          page_anchors url = Some a_tags ->
          ~ Forall (resolves url) a_tags -> links = []).
Proof.
  unfold get_all_links, page_anchors, try_except, bind, http_get, lift, ret.
  destruct (requests_get url) as [response|e].
  2:{ exists []. repeat split; auto using NoDup_nil; try easy. }
  destruct (status_code response =? 200)%Z; simpl.
  2:{ exists []. repeat split; auto using NoDup_nil; try easy. }
  destruct (BeautifulSoup (text response)) as [doc|e].
  2:{ exists []. repeat split; auto using NoDup_nil; try easy. }
  destruct (soup_find_all_a_href doc) as [a_tags|e].
  2:{ exists []. repeat split; auto using NoDup_nil; try easy. }
  destruct (links_loop url base_domain a_tags []) as (r & Hr & Hprop).
  destruct r as [links|e].
  - exists (set_list links). destruct Hprop as [Hall Hin].
    split; [intros s; now rewrite Hr|].
    split; [apply set_list_NoDup|].
    split; [|split; [discriminate|]].
    + intros link Hl. apply (proj1 (set_list_In _ _)) in Hl.
      destruct (Hin link Hl) as [[]|(a & p & ? & ? & ? & ?)].
      exists a_tags, a, p. auto.
    + intros tags E Hn. inversion E; subst. contradiction.
  - exists []. split; [intros s; now rewrite Hr|].
    repeat split; auto using NoDup_nil; try easy.
Qed.

(** *** [extract_data] *)

Lemma not_found_fold (ks : list string) :
  forall acc : dict string,
    let d := fold_left (fun d k => set d k "N/A") ks acc in
    (forall name, In name (keys d) <-> In name ks \/ In name (keys acc))
    /\ (forall name, In name ks -> get d name = Some "N/A")
    /\ (forall name, ~ In name ks -> get d name = get acc name).
Proof.
  induction ks as [|k ks IH]; intros acc; simpl.
  - repeat split; intuition.
  - destruct (IH (set acc k "N/A")) as (Hk & Hg & Ho).
    split; [|split].
    + intros name. rewrite Hk, keys_set_In. intuition.
    + intros name Hin. destruct (in_dec string_dec name ks) as [Hr|Hr].
      * auto.
      * destruct Hin as [->|Hin]; [|contradiction].
        rewrite (Ho _ Hr). apply get_set_same.
    + intros name Hn. rewrite Ho by tauto.
      apply get_set_other. tauto.
Qed.

Lemma not_found_get (selectors : selectors_t) (name : string) :
  In name (keys selectors) -> get (not_found selectors) name = Some "N/A".
Proof. apply (not_found_fold (keys selectors) []). Qed.

Lemma not_found_keys (selectors : selectors_t) (name : string) :
  In name (keys (not_found selectors)) <-> In name (keys selectors).
Proof.
  unfold not_found.
  rewrite (proj1 (not_found_fold (keys selectors) []) name).
  simpl. tauto.
Qed.

Lemma extract_field_run (soup : Soup) (results : dict string)
    (name : string) (info : dict string) :
  steady (extract_field soup results (name, info))
    match select_elements soup info with
    | Ok elements => Ok (set results name (field_value elements))
    | Raise e => Raise e
    end.
Proof.
  intros s. unfold extract_field, bind, lift, ret.
  destruct (select_elements soup info); reflexivity.
Qed.

Lemma fields_loop (soup : Soup) (selectors : selectors_t) :
  forall results,
  exists r,
    steady (foldM (extract_field soup) selectors results) r
    /\ match r with
       | Ok results' =>
           Forall (selects soup) selectors
           /\ (forall name, ~ In name (keys selectors) ->
                 get results' name = get results name)
           /\ (NoDup (keys selectors) ->
               forall name info elements,
                 In (name, info) selectors ->
                 select_elements soup info = Ok elements ->
                 get results' name = Some (field_value elements))
       | Raise _ => ~ Forall (selects soup) selectors
       end.
Proof.
  induction selectors as [|[k i] selectors IH]; intros results;
    cbn [foldM].
  - exists (Ok results). split; [intros s; reflexivity|].
    repeat split; auto. intros _ ? ? ? [].
  - pose proof (extract_field_run soup results k i) as Hstep.
    destruct (select_elements soup i) as [els|e] eqn:Ei.
    2:{ exists (Raise e). split; [intros s; unfold bind; now rewrite Hstep|].
        intros H. inversion H as [|? ? [x Hx] _]. simpl in Hx. congruence. }
    destruct (IH (set results k (field_value els))) as (r & Hr & Hprop).
    exists r. split; [intros s; unfold bind; rewrite Hstep; apply Hr|].
    destruct r as [results'|e]; [|intros H; inversion H; auto].
    destruct Hprop as (Hall & Hother & Hmine).
    split; [constructor; [exists els; exact Ei|assumption]|]. split.
    + intros name Hn. simpl in Hn. rewrite Hother by tauto.
      apply get_set_other. tauto.
    + intros Hnd name info elements Hin Hsel. simpl in Hnd.
      inversion Hnd as [|? ? Hk Hnd']; subst.
      destruct Hin as [E|Hin].
      * inversion E; subst. rewrite (Hother _ Hk).
        rewrite get_set_same. congruence.
      * eauto.
Qed.

Lemma extract_data_total (url : string) (selectors : selectors_t) :
  exists outcome,
    forall s,
      extract_data url selectors s = (log_request url s, Ok outcome).
Proof.
  unfold extract_data, try_except, bind, http_get, lift, ret.
  destruct (requests_get url) as [response|e]; [|eexists; reflexivity].
  destruct (negb (status_code response =? 200)%Z); [eexists; reflexivity|].
  destruct (BeautifulSoup (text response)) as [doc|e];
    [|eexists; reflexivity].
  destruct (fields_loop doc selectors []) as ([results|e] & Hr & _);
    eexists; intros s; rewrite Hr; reflexivity.
Qed.

Lemma extract_data_run (url : string) (selectors : selectors_t) (s : store) :
  extract_data url selectors s
  = (log_request url s, Ok (page_outcome url selectors)).
Proof.
  destruct (extract_data_total url selectors) as [outcome H].
  unfold page_outcome. now rewrite !H.
Qed.

Lemma page_outcome_failure (url err : string) (selectors : selectors_t) :
  fetch_failure url err ->
  page_outcome url selectors = (not_found selectors, Some err).
Proof.
  unfold page_outcome, extract_data, try_except, bind, http_get, lift, ret.
  intros [(cause & -> & ->)|(response & -> & Hs & ->)]; [reflexivity|].
  apply Z.eqb_neq in Hs. now rewrite Hs.
Qed.

Lemma page_outcome_success (url : string) (selectors : selectors_t)
    (response : response) (soup : Soup) :
  requests_get url = Ok response ->
  status_code response = 200%Z ->
  BeautifulSoup (text response) = Ok soup ->
  Forall (selects soup) selectors ->
  exists results,
    page_outcome url selectors = (results, None)
    /\ (NoDup (keys selectors) ->
        forall name info elements,
          In (name, info) selectors ->
          select_elements soup info = Ok elements ->
          get results name = Some (field_value elements)).
Proof.
  intros Hget Hs Hdoc Hall.
  unfold page_outcome, extract_data, try_except, bind, http_get, lift, ret.
  rewrite Hget, Hs, Hdoc. simpl.
  destruct (fields_loop soup selectors []) as ([results|e] & Hr & Hprop);
    [|contradiction].
  rewrite Hr. exists results. split; [reflexivity|apply Hprop].
Qed.

(** *** The worklist *)

Lemma build_worklist_run (start_url base_domain : string) (max_pages : Z)
    (crawl_same_domain : bool) :
  exists urls,
    (forall s,
        build_worklist start_url base_domain max_pages crawl_same_domain s
        = (if crawl_same_domain then log_request start_url s else s,
           Ok urls))
    /\ NoDup urls
    /\ (crawl_same_domain = false -> urls = slice_to [start_url] max_pages)
    /\ (crawl_same_domain = true ->
        exists new_links,
          (forall s,
              get_all_links start_url base_domain s
              = (log_request start_url s, Ok new_links))
          /\ NoDup new_links
          /\ urls
             = slice_to
                 (start_url
                  :: filter (fun link => negb (link =? start_url)%string)
                       new_links)
                 max_pages).
Proof.
  assert (Hstart : NoDup [start_url])
    by (constructor; [intros []|constructor]).
  unfold build_worklist, bind, ret. destruct crawl_same_domain.
  - destruct (get_all_links_spec start_url base_domain)
      as (new_links & Hrun & Hnd & _).
    exists (slice_to (fold_left add_url new_links [start_url]) max_pages).
    split; [intros s; now rewrite Hrun|].
    split; [apply slice_to_NoDup, add_url_fold_NoDup, Hstart|].
    split; [discriminate|]. intros _. exists new_links.
    repeat split; auto. rewrite (add_url_fold _ _ Hnd). simpl.
    do 2 f_equal. apply filter_ext. intros link.
    unfold mem. simpl. now rewrite orb_false_r.
  - exists (slice_to [start_url] max_pages).
    split; [reflexivity|]. split; [apply slice_to_NoDup, Hstart|].
    split; [reflexivity|discriminate].
Qed.

(** *** The pool *)

Lemma submit_run (selectors : selectors_t) (urls : list string) :
  forall (future_to_url : dict future) s,
    foldM (submit selectors) urls future_to_url s
    = (log_requests urls s,
       Ok (future_to_url ++ futures_of selectors urls)%list).
Proof.
  induction urls as [|url urls IH]; intros future_to_url s;
    cbn [foldM futures_of map log_requests fold_left].
  - unfold ret. now rewrite app_nil_r.
  - unfold bind, submit. rewrite extract_data_run.
    fold (log_requests urls (log_request url s)).
    rewrite IH. unfold futures_of. now rewrite <- app_assoc.
Qed.

Lemma log_requests_fields (urls : list string) :
  forall s,
    requests_log (log_requests urls s) = (requests_log s ++ urls)%list
    /\ all_data (log_requests urls s) = all_data s
    /\ error_log (log_requests urls s) = error_log s.
Proof.
  unfold log_requests.
  induction urls as [|url urls IH]; intros s; simpl.
  - now rewrite app_nil_r.
  - destruct (IH (log_request url s)) as (Hr & Hd & He).
    rewrite Hr, Hd, He. simpl. now rewrite <- app_assoc.
Qed.

Lemma futures_of_keys (selectors : selectors_t) (urls : list string) :
  keys (futures_of selectors urls) = urls.
Proof.
  unfold keys, futures_of. rewrite map_map. simpl. apply map_id.
Qed.

Lemma futures_of_result (selectors : selectors_t) (urls : list string)
    (url : string) :
  In url urls ->
  future_result (futures_of selectors urls) url
  = Ok (page_outcome url selectors).
Proof.
  unfold future_result, futures_of.
  induction urls as [|u urls IH]; intros Hin; [destruct Hin|]. simpl.
  destruct (String.eqb_spec u url) as [->|Hne]; [reflexivity|].
  apply IH. destruct Hin; [contradiction|assumption].
Qed.

Lemma collect_run (selectors : selectors_t) (future_to_url : dict future)
    (total_urls i : nat) (url : string) (s : store) :
  future_result future_to_url url = Ok (page_outcome url selectors) ->
  total_urls <> 0%nat ->
  collect future_to_url total_urls (i, url) s
  = (after_page selectors s url, Ok tt).
Proof.
  intros Hf Ht. unfold collect, try_except, bind, lift. rewrite Hf.
  unfold after_page, has_error, warning_line, record_of.
  destruct (page_outcome url selectors) as [data error]. simpl.
  unfold update_progress.
  destruct total_urls as [|n]; [contradiction|]. simpl.
  destruct error as [msg|]; simpl; [destruct (truthy msg)|]; simpl;
    rewrite ?app_nil_r; reflexivity.
Qed.

Lemma pool_run (selectors : selectors_t) (future_to_url : dict future)
    (total_urls : nat) :
  total_urls <> 0%nat ->
  forall urls i s,
    (forall url, In url urls ->
       future_result future_to_url url = Ok (page_outcome url selectors)) ->
    for_each (enumerate_from i urls) (collect future_to_url total_urls) s
    = (after_pool selectors urls s, Ok tt).
Proof.
  intros Ht. induction urls as [|url urls IH]; intros i s Hf;
    cbn [for_each enumerate_from].
  - reflexivity.
  - unfold bind.
    rewrite (collect_run selectors _ _ _ _ _ (Hf url (or_introl eq_refl)) Ht).
    apply IH. intros u Hu. apply Hf. now right.
Qed.

Lemma after_pool_fields (selectors : selectors_t) (urls : list string) :
  forall s,
    requests_log (after_pool selectors urls s) = requests_log s
    /\ all_data (after_pool selectors urls s)
       = (all_data s ++ map (record_of selectors) urls)%list
    /\ error_log (after_pool selectors urls s)
       = (error_log s
          ++ map (warning_line selectors)
               (filter (has_error selectors) urls))%list.
Proof.
  unfold after_pool.
  induction urls as [|url urls IH]; intros s; simpl.
  - now rewrite !app_nil_r.
  - destruct (IH (after_page selectors s url)) as (Hr & Hd & He).
    rewrite Hr, Hd, He. simpl.
    destruct (has_error selectors url); simpl;
      rewrite <- ?app_assoc; simpl; rewrite ?app_nil_r; auto.
Qed.

Lemma row_url_record_of (selectors : selectors_t) (url : string) :
  row_url (record_of selectors url) = url.
Proof. unfold row_url, record_of, get_or. now rewrite get_set_same. Qed.

(** *** [scrape_website] *)

Lemma scrape_website_trace (start_url : string) (selectors : selectors_t)
    (max_pages : Z) (crawl_same_domain : bool) (s : store) :
  is_valid_url start_url = true ->
  exists parsed urls,
    urlparse start_url = Ok parsed
    /\ (forall s0,
           build_worklist start_url (netloc parsed) max_pages
             crawl_same_domain s0
           = (if crawl_same_domain then log_request start_url s0 else s0,
              Ok urls))
    /\ NoDup urls
    /\ scrape_website start_url selectors max_pages crawl_same_domain s
       = (after_pool selectors (as_completed urls)
            (log_requests urls
               (crawl_store start_url crawl_same_domain s)),
          Ok (map (record_of selectors) (as_completed urls),
              summary (length urls)
                (length (filter (has_error selectors) urls)))).
Proof.
  intros Hv. unfold scrape_website. rewrite Hv. simpl.
  unfold is_valid_url in Hv.
  destruct (urlparse start_url) as [parsed|e] eqn:Ep; [|discriminate].
  destruct (build_worklist_run start_url (netloc parsed) max_pages
              crawl_same_domain) as (urls & Hrun & Hnd & _).
  exists parsed, urls.
  set (s1 := crawl_store start_url crawl_same_domain s).
  set (s2 := log_requests urls s1).
  assert (Hd1 : all_data s2 = []).
  { unfold s2. rewrite (proj1 (proj2 (log_requests_fields urls s1))).
    unfold s1, crawl_store. destruct crawl_same_domain; reflexivity. }
  assert (He1 : error_log s2 = []).
  { unfold s2. rewrite (proj2 (proj2 (log_requests_fields urls s1))).
    unfold s1, crawl_store. destruct crawl_same_domain; reflexivity. }
  split; [reflexivity|]. split; [exact Hrun|]. split; [exact Hnd|].
  pose proof (as_completed_perm urls) as Hperm.
  assert (Hpool :
    for_each (enumerate_from 0 (as_completed urls))
      (collect (futures_of selectors urls) (length urls)) s2
    = (after_pool selectors (as_completed urls) s2, Ok tt)).
  { destruct urls as [|u urls].
    - apply Permutation_sym, Permutation_nil in Hperm.
      rewrite Hperm. reflexivity.
    - apply pool_run; [discriminate|].
      intros url Hin. apply futures_of_result.
      exact (Permutation_in _ Hperm Hin). }
  unfold bind at 1. unfold init_locals.
  unfold bind at 1, lift at 1. unfold bind at 1.
  unfold try_except, bind at 1. rewrite Hrun.
  change (if crawl_same_domain
          then log_request start_url (init_store s) else init_store s)
    with s1.
  unfold bind at 1. rewrite submit_run. fold s2.
  cbn [app]. rewrite futures_of_keys.
  unfold bind at 1. rewrite Hpool. unfold ret at 1.
  unfold bind at 1, read_all_data at 1. unfold bind, read_error_log, ret.
  destruct (after_pool_fields selectors (as_completed urls) s2)
    as (_ & Hd & He).
  rewrite Hd, He, Hd1, He1. simpl.
  rewrite !length_map.
  rewrite (Permutation_length Hperm).
  rewrite (Permutation_length (filter_Permutation _ _ _ Hperm)).
  unfold summary.
  destruct (filter (has_error selectors) (as_completed urls))
    as [|x l] eqn:Ef;
    apply (f_equal (@length _)) in Ef;
    rewrite (Permutation_length (filter_Permutation _ _ _ Hperm)) in Ef;
    simpl in Ef; rewrite Ef; reflexivity.
Qed.

Lemma scrape_website_run (start_url : string) (selectors : selectors_t)
    (max_pages : Z) (crawl_same_domain : bool) (s : store) :
  is_valid_url start_url = true ->
  exists parsed urls s',
    urlparse start_url = Ok parsed
    /\ (forall s0,
           build_worklist start_url (netloc parsed) max_pages
             crawl_same_domain s0
           = (if crawl_same_domain then log_request start_url s0 else s0,
              Ok urls))
    /\ scrape_website start_url selectors max_pages crawl_same_domain s
       = (s',
          Ok (map (record_of selectors) (as_completed urls),
              summary (length urls)
                (length (filter (has_error selectors) urls)))).
Proof.
  intros Hv.
  destruct (scrape_website_trace start_url selectors max_pages
              crawl_same_domain s Hv)
    as (parsed & urls & Hp & Hwl & _ & Hrun).
  exists parsed, urls. eexists. split; [exact Hp|].
  split; [exact Hwl|exact Hrun].
Qed.

(** ** The properties of the specification *)

(** C1. [extract_data] never raises.  When the fetch of the page raises,
    or answers with a status other than 200, the pair it returns holds a
    record whose fields are those of the rule set, each equal to the
    not-found marker, and the error note of the failure, which is not
    empty. *)
Theorem extract_data_fetch_failure (url : string) (selectors : selectors_t)
    (s : store) :
  (exists outcome,
      extract_data url selectors s = (log_request url s, Ok outcome))
  /\ forall err,
       fetch_failure url err ->
       exists data,
         extract_data url selectors s
         = (log_request url s, Ok (data, Some err))
         /\ (forall name, In name (keys selectors) ->
               get data name = Some "N/A")
         /\ (forall name, In name (keys data) -> In name (keys selectors))
         /\ err <> "".
Proof.
  split; [exists (page_outcome url selectors); apply extract_data_run|].
  intros err Hf. exists (not_found selectors).
  rewrite extract_data_run, (page_outcome_failure _ _ _ Hf).
  split; [reflexivity|]. split; [apply not_found_get|].
  split; [intros name; apply not_found_keys|].
  destruct Hf as [(c & _ & ->)|(r & _ & _ & ->)]; discriminate.
Qed.

(** C2. On a start URL that lacks a scheme or a host, [scrape_website]
    returns the empty table and the summary of an invalid URL, and the
    store is the one it was called in: no request was issued and no page
    was dispatched. *)
Theorem scrape_website_invalid_url (start_url : string)
    (selectors : selectors_t) (max_pages : Z) (crawl_same_domain : bool)
    (s : store) :
  ~ well_formed start_url ->
  scrape_website start_url selectors max_pages crawl_same_domain s
  = (s, Ok ([], "Invalid URL provided")).
Proof.
  intros Hn. unfold scrape_website.
  destruct (is_valid_url start_url) eqn:E; [|reflexivity].
  apply is_valid_url_well_formed in E. contradiction.
Qed.

(** C3. The worklist holds no URL twice, and when the page cap is not
    negative it is no longer than the cap. *)
Theorem worklist_unique_and_capped (start_url base_domain : string)
    (max_pages : Z) (crawl_same_domain : bool) (s : store) :
  exists urls s',
    build_worklist start_url base_domain max_pages crawl_same_domain s
    = (s', Ok urls)
    /\ NoDup urls
    /\ ((0 <= max_pages)%Z -> (Z.of_nat (length urls) <= max_pages)%Z).
Proof.
  destruct (build_worklist_run start_url base_domain max_pages
              crawl_same_domain) as (urls & Hrun & Hnd & Hoff & Hon).
  exists urls. eexists. split; [apply Hrun|]. split; [assumption|].
  intros Hcap. destruct crawl_same_domain.
  - destruct (Hon eq_refl) as (new_links & _ & _ & ->).
    now apply slice_to_length.
  - rewrite (Hoff eq_refl). now apply slice_to_length.
Qed.

(** C4. For a rule of the CSS kind, the step of [extract_data] writes
    into the field the stripped text of the first element the selector
    matches, and the not-found marker when it matches none. *)
Theorem css_rule_first_match (soup : Soup) (results : dict string)
    (name : string) (info : dict string) (s : store) :
  get_or info "type" "css" = "css" ->
  (forall first rest,
      soup_select soup (get_or info "value" "") = Ok (first :: rest) ->
      exists results',
        extract_field soup results (name, info) s = (s, Ok results')
        /\ get results' name = Some (get_text_strip first))
  /\ (soup_select soup (get_or info "value" "") = Ok [] ->
      exists results',
        extract_field soup results (name, info) s = (s, Ok results')
        /\ get results' name = Some "N/A").
Proof.
  intros Hk.
  assert (Hsel : select_elements soup info
                 = soup_select soup (get_or info "value" ""))
    by (unfold select_elements; now rewrite Hk).
  split; [intros first rest H|intros H];
    rewrite extract_field_run, Hsel, H;
    eexists; (split; [reflexivity|apply get_set_same]).
Qed.

(** C6. [get_all_links], called with the host of the page URL, never
    raises.  The links it returns are pairwise distinct; each is the
    join of the page URL with the href of an anchor of the page, and its
    host is the host of the page URL.  When the fetch fails, the status
    is not 200, the page does not parse, or an href does not resolve,
    it returns the empty list. *)
Theorem get_all_links_same_host (url : string) (page : parse_result)
    (s : store) :
  urlparse url = Ok page ->
  exists links,
    get_all_links url (netloc page) s = (log_request url s, Ok links)
    /\ NoDup links
    /\ (forall link, In link links ->
          exists a_tags a_tag parsed,
            page_anchors url = Some a_tags
            /\ In a_tag a_tags
            /\ urljoin url (tag_href a_tag) = Ok link
            /\ urlparse link = Ok parsed
            /\ netloc parsed = netloc page)
    /\ (forall err, fetch_failure url err -> links = [])
    /\ (page_anchors url = None -> links = [])
    /\ (forall a_tags,
          page_anchors url = Some a_tags ->
          ~ Forall (resolves url) a_tags -> links = []).
Proof.
  intros _.
  destruct (get_all_links_spec url (netloc page))
    as (links & Hrun & Hnd & Hin & Hnone & Hraise).
  exists links. repeat split; auto.
  intros err Hf. apply Hnone. unfold page_anchors.
  destruct Hf as [(c & -> & _)|(r & -> & Hs & _)]; [reflexivity|].
  apply Z.eqb_neq in Hs. now rewrite Hs.
Qed.

(** C7. With crawling on, the worklist is the start URL followed by the
    links of the start page other than the start URL, in the order the
    link collector returned them, cut to the page cap.  With a cap of 2
    and 5 links it is the start URL and the first of the links that is
    not the start URL. *)
Theorem worklist_first_seen (start_url base_domain : string)
    (max_pages : Z) (s : store) :
  exists new_links urls,
    get_all_links start_url base_domain s
    = (log_request start_url s, Ok new_links)
    /\ build_worklist start_url base_domain max_pages true s
       = (log_request start_url s, Ok urls)
    /\ urls
       = slice_to
           (start_url
            :: filter (fun link => negb (link =? start_url)%string)
                 new_links)
           max_pages
    /\ ((1 <= max_pages)%Z -> hd_error urls = Some start_url)
    /\ (max_pages = 2%Z ->
        length new_links = 5%nat ->
        exists link,
          urls = [start_url; link]
          /\ find (fun link => negb (link =? start_url)%string) new_links
             = Some link).
Proof.
  destruct (build_worklist_run start_url base_domain max_pages true)
    as (urls & Hrun & _ & _ & Hon).
  destruct (Hon eq_refl) as (new_links & Hlinks & Hnd & ->).
  exists new_links. eexists. split; [apply Hlinks|].
  split; [apply Hrun|]. split; [reflexivity|]. split.
  - intros Hcap. unfold slice_to.
    destruct (0 <=? max_pages)%Z eqn:E; [|apply Z.leb_gt in E; lia].
    destruct (Z.to_nat max_pages) eqn:En; [lia|reflexivity].
  - intros -> Hlen.
    destruct new_links as [|a [|b [|c [|d [|e [|]]]]]]; try discriminate.
    unfold slice_to. simpl.
    destruct (String.eqb_spec a start_url) as [->|Ha]; simpl.
    + destruct (String.eqb_spec b start_url) as [->|Hb]; simpl.
      * inversion Hnd as [|? ? Hin _]. simpl in Hin. tauto.
      * now exists b.
    + now exists a.
Qed.

(** C8. On a well-formed start URL [scrape_website] returns a table
    that holds one row for each URL of the worklist: whatever the order
    in which the futures complete, the rows are a rearrangement of the
    rows of the worklist URLs, and their URLs are those of the worklist,
    each once. *)
Theorem scrape_website_one_record_per_url (start_url : string)
    (selectors : selectors_t) (max_pages : Z) (crawl_same_domain : bool)
    (s : store) :
  is_valid_url start_url = true ->
  exists parsed urls rows msg s',
    urlparse start_url = Ok parsed
    /\ (forall s0, exists s1,
           build_worklist start_url (netloc parsed) max_pages
             crawl_same_domain s0 = (s1, Ok urls))
    /\ scrape_website start_url selectors max_pages crawl_same_domain s
       = (s', Ok (rows, msg))
    /\ length rows = length urls
    /\ Permutation rows (map (record_of selectors) urls)
    /\ Permutation (map row_url rows) urls
    /\ NoDup (map row_url rows).
Proof.
  intros Hv.
  destruct (scrape_website_run start_url selectors max_pages
              crawl_same_domain s Hv)
    as (parsed & urls & s' & Hp & Hwl & Hrun).
  destruct (build_worklist_run start_url (netloc parsed) max_pages
              crawl_same_domain) as (urls' & Hwl' & Hnd & _).
  assert (urls' = urls) as ->
    by (pose proof (Hwl empty_store) as E; rewrite Hwl' in E; congruence).
  pose proof (as_completed_perm urls) as Hperm.
  assert (Hurl : map row_url (map (record_of selectors) (as_completed urls))
                 = as_completed urls).
  { rewrite map_map. rewrite <- (map_id (as_completed urls)) at 2.
    apply map_ext. apply row_url_record_of. }
  exists parsed, urls. do 3 eexists.
  split; [exact Hp|]. split; [intros s0; eexists; apply Hwl|].
  split; [exact Hrun|].
  split; [rewrite length_map; apply (Permutation_length Hperm)|].
  split; [apply Permutation_map, Hperm|].
  rewrite Hurl. split; [exact Hperm|].
  apply (Permutation_NoDup (Permutation_sym Hperm) Hnd).
Qed.

(** C9. On a well-formed start URL the summary is the line that counts
    the rows of the table, rows of failed pages included, followed by
    the line that counts the warnings exactly when a page of the
    worklist produced an error. *)
Theorem scrape_website_summary (start_url : string)
    (selectors : selectors_t) (max_pages : Z) (crawl_same_domain : bool)
    (s : store) :
  is_valid_url start_url = true ->
  exists parsed urls rows msg s',
    urlparse start_url = Ok parsed
    /\ (forall s0, exists s1,
           build_worklist start_url (netloc parsed) max_pages
             crawl_same_domain s0 = (s1, Ok urls))
    /\ scrape_website start_url selectors max_pages crawl_same_domain s
       = (s', Ok (rows, msg))
    /\ msg = summary (length rows)
               (length (filter (has_error selectors) urls))
    /\ (length (filter (has_error selectors) urls) = 0%nat
        <-> forall url, In url urls -> has_error selectors url = false).
Proof.
  intros Hv.
  destruct (scrape_website_run start_url selectors max_pages
              crawl_same_domain s Hv)
    as (parsed & urls & s' & Hp & Hwl & Hrun).
  exists parsed, urls. do 3 eexists.
  split; [exact Hp|]. split; [intros s0; eexists; apply Hwl|].
  split; [exact Hrun|]. split.
  - rewrite length_map.
    now rewrite (Permutation_length (as_completed_perm urls)).
  - rewrite length_zero_iff_nil. apply filter_nil_iff.
Qed.

(** C10. A rule whose kind is neither css nor xpath selects no element
    and raises nothing: its step writes the not-found marker, and on a
    page that is fetched and parsed, with no rule of the set raising,
    the record holds the marker in its field and carries no error. *)
Theorem unknown_kind_not_found (soup : Soup) (info : dict string) :
  unknown_kind info ->
  select_elements soup info = Ok []
  /\ (forall results name s,
        exists results',
          extract_field soup results (name, info) s = (s, Ok results')
          /\ get results' name = Some "N/A")
  /\ (forall url selectors response name s,
        requests_get url = Ok response ->
        status_code response = 200%Z ->
        BeautifulSoup (text response) = Ok soup ->
        Forall (selects soup) selectors ->
        NoDup (keys selectors) ->
        In (name, info) selectors ->
        exists data,
          extract_data url selectors s = (log_request url s, Ok (data, None))
          /\ get data name = Some "N/A").
Proof.
  intros [Hc Hx].
  assert (Hsel : select_elements soup info = Ok []).
  { unfold select_elements.
    apply String.eqb_neq in Hc, Hx. now rewrite Hc, Hx. }
  split; [exact Hsel|]. split.
  - intros results name s. rewrite extract_field_run, Hsel.
    eexists. split; [reflexivity|apply get_set_same].
  - intros url selectors response name s Hget Hs Hdoc Hall Hnd Hin.
    destruct (page_outcome_success url selectors response soup
                Hget Hs Hdoc Hall) as (data & Hout & Hfield).
    exists data. rewrite extract_data_run, Hout.
    split; [reflexivity|]. exact (Hfield Hnd name info [] Hin Hsel).
Qed.

End PipelineFacts.

(** ** The properties on the small site *)

Module SiteFacts.

Import Site.

(** C1 at work: the page that answers 404. *)
Lemma extract_data_fetch_failure_witness :
  exists data,
    extract_data (W := world) page_e rules empty_store
    = (log_request page_e empty_store, Ok (data, Some "Error: HTTP 404"))
    /\ get data "title" = Some "N/A".
Proof.
  destruct (proj2 (extract_data_fetch_failure (W := world) page_e rules
                     empty_store) "Error: HTTP 404")
    as (data & Hrun & Hget & _).
  - right. exists {| status_code := 404; text := "" |}.
    split; [reflexivity|split; [simpl; discriminate|reflexivity]].
  - exists data. split; [exact Hrun|]. apply Hget. simpl. auto.
Defined.

(** C2 at work: a start URL with neither scheme nor host. *)
Lemma scrape_website_invalid_url_witness :
  scrape_website (W := world) "not a url" rules 10 true empty_store
  = (empty_store, Ok ([], "Invalid URL provided")).
Proof.
  apply (scrape_website_invalid_url (W := world)).
  intros (parsed & E & Hs & _). vm_compute in E.
  inversion E; subst parsed. apply Hs. reflexivity.
Defined.

(** C3 at work: a cap of 2 on a page with five links. *)
Lemma worklist_unique_and_capped_witness :
  (0 <= 2)%Z
  /\ exists urls s',
       build_worklist (W := world) start "site.test" 2 true empty_store
       = (s', Ok urls)
       /\ NoDup urls /\ (Z.of_nat (length urls) <= 2)%Z.
Proof.
  split; [lia|].
  destruct (worklist_unique_and_capped (W := world) start "site.test" 2
              true empty_store) as (urls & s' & Hrun & Hnd & Hcap).
  exists urls, s'. repeat split; auto. apply Hcap. lia.
Defined.

(** C4 at work: the one heading of the home page. *)
Lemma css_rule_first_match_witness :
  exists results',
    extract_field (W := world) home [] ("title", [("type", "css");
                                                  ("value", "h1")])
      empty_store
    = (empty_store, Ok results')
    /\ get results' "title" = Some "Hello".
Proof.
  exact (proj1 (css_rule_first_match (W := world) home [] "title"
                  [("type", "css"); ("value", "h1")] empty_store eq_refl)
           {| name := "h1"; attrs := []; inner := "Hello" |} [] eq_refl).
Defined.

(** C6 at work: the links of the home page. *)
Lemma get_all_links_same_host_witness :
  exists links,
    get_all_links (W := world) start "site.test" empty_store
    = (log_request start empty_store, Ok links)
    /\ NoDup links
    /\ forall link, In link links ->
         exists parsed,
           parse_url link = Ok parsed /\ netloc parsed = "site.test".
Proof.
  destruct (get_all_links_same_host (W := world) start
              {| scheme := "http"; netloc := "site.test" |} empty_store
              eq_refl) as (links & Hrun & Hnd & Hin & _).
  exists links. repeat split; auto.
  intros link Hl. destruct (Hin link Hl) as (_ & _ & parsed & _ & _ & _ & H).
  exists parsed. exact H.
Defined.

(** C7 at work: a cap of 2 on a page with five links. *)
Lemma worklist_first_seen_witness :
  build_worklist (W := world) start "site.test" 2 true empty_store
  = (log_request start empty_store, Ok [start; page_a]).
Proof.
  destruct (worklist_first_seen (W := world) start "site.test" 2
              empty_store)
    as (new_links & urls & Hlinks & Hrun & _ & _ & Hfive).
  vm_compute in Hlinks. inversion Hlinks; subst new_links.
  destruct (Hfive eq_refl eq_refl) as (link & -> & Hfind).
  vm_compute in Hfind. inversion Hfind; subst link. exact Hrun.
Defined.

(** C8 at work: a crawl of two pages. *)
Lemma scrape_website_one_record_per_url_witness :
  exists rows msg s',
    scrape_website (W := world) start rules 2 true empty_store
    = (s', Ok (rows, msg))
    /\ length rows = 2%nat
    /\ Permutation (map row_url rows) [start; page_a].
Proof.
  destruct (scrape_website_one_record_per_url (W := world) start rules 2
              true empty_store eq_refl)
    as (parsed & urls & rows & msg & s' & Hp & Hwl & Hrun & Hlen & _
        & Hurls & _).
  vm_compute in Hp. inversion Hp; subst parsed.
  destruct (Hwl empty_store) as [s1 E].
  vm_compute in E. inversion E; subst urls.
  exists rows, msg, s'. repeat split; assumption.
Defined.

(** C9 at work: a crawl of six pages, four of which fail. *)
Lemma scrape_website_summary_witness :
  exists rows msg s',
    scrape_website (W := world) start rules 10 true empty_store
    = (s', Ok (rows, msg))
    /\ msg = summary (length rows) 4.
Proof.
  destruct (scrape_website_summary (W := world) start rules 10 true
              empty_store eq_refl)
    as (parsed & urls & rows & msg & s' & Hp & Hwl & Hrun & Hmsg & _).
  vm_compute in Hp. inversion Hp; subst parsed.
  destruct (Hwl empty_store) as [s1 E].
  vm_compute in E. inversion E; subst urls.
  exists rows, msg, s'. split; [exact Hrun|exact Hmsg].
Defined.

(** C10 at work: the rule of kind regex on the home page. *)
Lemma unknown_kind_not_found_witness :
  exists data,
    extract_data (W := world) start rules empty_store
    = (log_request start empty_store, Ok (data, None))
    /\ get data "price" = Some "N/A".
Proof.
  refine (proj2 (proj2 (unknown_kind_not_found (W := world) home
                          [("type", "regex"); ("value", "[0-9]+")] _))
            start rules {| status_code := 200; text := "home" |} "price"
            empty_store eq_refl eq_refl eq_refl _ _ _).
  - split; vm_compute; discriminate.
  - repeat constructor; eexists; reflexivity.
  - repeat constructor; simpl; intuition discriminate.
  - simpl. auto.
Defined.

(** The whole pipeline on the site, crawling on, as many pages as found:
    the rows come in completion order, and a field named by a rule of
    an unknown kind holds the marker without a warning of its own. *)
Example crawl_all :
  snd (scrape_website (W := world) start rules 10 true empty_store)
  = Ok ([ [("title", "N/A"); ("body", "N/A"); ("price", "N/A");
           ("url", "http://site.test/b")];
          [("title", "N/A"); ("body", "N/A"); ("price", "N/A");
           ("url", "http://site.test/c")];
          [("title", "N/A"); ("body", "N/A"); ("price", "N/A");
           ("url", "http://site.test/d")];
          [("title", "N/A"); ("body", "N/A"); ("price", "N/A");
           ("url", "http://site.test/e")];
          [("title", "Leaf"); ("body", "N/A"); ("price", "N/A");
           ("url", "http://site.test/a")];
          [("title", "Hello"); ("body", "Body"); ("price", "N/A");
           ("url", "http://site.test/")] ],
        "Successfully scraped 6 pages" ++ nl
        ++ "Warnings: 4 pages had errors").
Proof. reflexivity. Qed.

(** A cap below zero cuts from the end of the list, as a slice does. *)
Example negative_cap :
  snd (build_worklist (W := world) start "site.test" (-1) false empty_store)
  = Ok [].
Proof. reflexivity. Qed.

End SiteFacts.

(** * Further properties of the code *)

(** ** [parse_xpath]: what it can return *)

Section MorePatternFacts.

Context {W : World}.

(** X1. Whatever the expression, the tag [parse_xpath] returns is a
    non-empty run of word characters, and the filter is empty or one
    entry whose name is such a run and whose value is non-empty and free
    of double quotes. *)
Theorem parse_xpath_shape (xpath : string) :
  word_str (fst (parse_xpath xpath))
  /\ (snd (parse_xpath xpath) = []
      \/ exists attr value,
           snd (parse_xpath xpath) = [(attr, value)]
           /\ word_str attr /\ value_str value).
Proof.
  unfold parse_xpath.
  destruct (Re.match_xpath unicode_isalnum xpath) as [m|] eqn:Hm.
  - pose proof (match_xpath_inv _ _ Hm) as (rest & _ & Wt & _).
    destruct (match_xpath_groups _ _ Hm)
      as [[-> ->]|(a & v & -> & -> & Wa & Wv)]; simpl.
    + split; [exact Wt|now left].
    + rewrite (word_str_truthy _ Wa), (value_str_truthy _ Wv). simpl.
      split; [exact Wt|]. right. now exists a, v.
  - simpl. split; [|now left].
    apply ascii_word_str_word_str. split; [discriminate|reflexivity].
Qed.

(** X2. A filter written with an empty value is dropped: the expression
    selects by tag alone. *)
Theorem parse_xpath_empty_value (tag attr rest : string) :
  ascii_word_str tag ->
  all_chars Re.ascii_word attr = true ->
  parse_xpath ("//" ++ tag ++ "[@" ++ attr ++ "=" ++ dq ++ dq ++ "]" ++ rest)
  = (tag, []).
Proof.
  intros Wt Wa. apply ascii_word_str_word_str in Wt.
  apply ascii_word_run in Wa.
  unfold parse_xpath, Re.match_xpath.
  rewrite lit_app, (span_word_app tag)
    by (apply Wt || (apply ascii_stops_word; reflexivity)).
  rewrite (word_str_truthy _ Wt).
  assert (Hg : Re.attr_group unicode_isalnum
                 ("[@" ++ attr ++ "=" ++ dq ++ dq ++ "]" ++ rest) = None).
  { unfold Re.attr_group, dq, dquote.
    cbn [append Re.lit Ascii.eqb Bool.eqb].
    rewrite (span_word_app attr)
      by (auto; apply ascii_stops_word; reflexivity).
    destruct (truthy attr); reflexivity. }
  now rewrite Hg.
Qed.

End MorePatternFacts.

Lemma parse_xpath_empty_value_witness :
  parse_xpath (W := Site.world) ("//div[@class=" ++ dq ++ dq ++ "]")
  = ("div", []).
Proof.
  apply (parse_xpath_empty_value (W := Site.world) "div" "class" "").
  - split; [discriminate|reflexivity].
  - reflexivity.
Defined.

Lemma keys_set_keep {V : Type} (d : dict V) (k : string) (v : V) :
  In k (keys d) -> keys (set d k v) = keys d.
Proof.
  unfold keys. induction d as [|[k' v'] d IH]; simpl; intros H; [easy|].
  destruct (String.eqb_spec k' k) as [->|Hne]; simpl; [reflexivity|].
  f_equal. apply IH. destruct H; [contradiction|assumption].
Qed.

Lemma keys_set_new {V : Type} (d : dict V) (k : string) (v : V) :
  ~ In k (keys d) -> keys (set d k v) = (keys d ++ [k])%list.
Proof.
  unfold keys. induction d as [|[k' v'] d IH]; simpl; intros H; [easy|].
  destruct (String.eqb_spec k' k) as [->|Hne]; simpl; [tauto|].
  f_equal. apply IH. tauto.
Qed.

(** ** More on the pipeline *)

Section MorePipelineFacts.

Context {W : World}.

(** *** [get_all_links] *)

Lemma links_loop_exact (url base_domain : string) (a_tags : list Tag) :
  Forall (resolves url) a_tags ->
  forall links,
    steady (foldM (add_link url base_domain) a_tags links)
      (Ok (links ++ flat_map (same_host_link url base_domain) a_tags)%list).
Proof.
  induction 1 as [|a a_tags (full & p & Ej & Ep) _ IH]; intros links s.
  - simpl. now rewrite app_nil_r.
  - assert (Ha : same_host_link url base_domain a
                 = if (netloc p =? base_domain)%string then [full] else [])
      by (unfold same_host_link; now rewrite Ej, Ep).
    cbn [foldM flat_map]. unfold bind.
    rewrite add_link_run, Ej, Ep, IH, Ha.
    destruct (netloc p =? base_domain)%string; simpl.
    + now rewrite <- app_assoc.
    + reflexivity.
Qed.

Lemma same_host_link_In (url base_domain link : string) (a_tags : list Tag) :
  In link (flat_map (same_host_link url base_domain) a_tags)
  <-> exists a_tag parsed,
        In a_tag a_tags
        /\ urljoin url (tag_href a_tag) = Ok link
        /\ urlparse link = Ok parsed
        /\ netloc parsed = base_domain.
Proof.
  rewrite in_flat_map. unfold same_host_link. split.
  - intros (a & Ha & Hin).
    destruct (urljoin url (tag_href a)) as [full|] eqn:Ej; [|destruct Hin].
    destruct (urlparse full) as [p|] eqn:Ep; [|destruct Hin].
    destruct (String.eqb_spec (netloc p) base_domain) as [E|];
      [|destruct Hin].
    destruct Hin as [<-|[]]. exists a, p. auto.
  - intros (a & p & Ha & Ej & Ep & E). exists a. split; [assumption|].
    rewrite Ej, Ep. apply String.eqb_eq in E. rewrite E. now left.
Qed.

(** X6. When the page is fetched and parsed and every href resolves,
    [get_all_links] loses no link: a URL is returned exactly when it is
    the join of the page URL with the href of some anchor and lies on
    [base_domain]. *)
Theorem get_all_links_complete (url base_domain : string)
    (a_tags : list Tag) (s : store) :
  page_anchors url = Some a_tags ->
  Forall (resolves url) a_tags ->
  exists links,
    get_all_links url base_domain s = (log_request url s, Ok links)
    /\ forall link,
         In link links
         <-> exists a_tag parsed,
               In a_tag a_tags
               /\ urljoin url (tag_href a_tag) = Ok link
               /\ urlparse link = Ok parsed
               /\ netloc parsed = base_domain.
Proof.
  intros Hpage Hall.
  exists (set_list (flat_map (same_host_link url base_domain) a_tags)).
  split.
  - unfold page_anchors in Hpage.
    unfold get_all_links, try_except, bind, http_get, lift, ret.
    destruct (requests_get url) as [response|]; [|discriminate].
    destruct (status_code response =? 200)%Z; [|discriminate]. simpl.
    destruct (BeautifulSoup (text response)) as [doc|]; [|discriminate].
    destruct (soup_find_all_a_href doc) as [tags|]; [|discriminate].
    inversion Hpage; subst tags.
    now rewrite (links_loop_exact url base_domain a_tags Hall []).
  - intros link. rewrite set_list_In. apply same_host_link_In.
Qed.

(** *** [extract_data] *)

Lemma not_found_keys_eq (selectors : selectors_t) :
  NoDup (keys selectors) -> keys (not_found selectors) = keys selectors.
Proof.
  unfold not_found. generalize (keys selectors) as ks. intros ks Hnd.
  assert (H : forall acc : dict string,
             NoDup (keys acc ++ ks) ->
             keys (fold_left (fun d k => set d k "N/A") ks acc)
             = (keys acc ++ ks)%list).
  { clear Hnd. induction ks as [|k ks IH]; intros acc Hacc; simpl.
    - now rewrite app_nil_r.
    - pose proof (NoDup_remove_2 _ _ _ Hacc) as Hk.
      assert (Hk' : ~ In k (keys acc))
        by (intros Hin; apply Hk, in_or_app; now left).
      rewrite IH; rewrite (keys_set_new _ _ _ Hk');
        rewrite <- app_assoc; [reflexivity|exact Hacc]. }
  apply (H []). exact Hnd.
Qed.

Lemma fields_loop_keys (soup : Soup) (selectors : selectors_t) :
  forall results s s' results',
    NoDup (keys results ++ keys selectors) ->
    foldM (extract_field soup) selectors results s = (s', Ok results') ->
    keys results' = (keys results ++ keys selectors)%list.
Proof.
  induction selectors as [|[k i] selectors IH];
    intros results s s' results' Hnd H; cbn [foldM] in H.
  - inversion H; subst. simpl. now rewrite app_nil_r.
  - unfold bind in H. rewrite extract_field_run in H.
    destruct (select_elements soup i) as [els|e]; [|discriminate].
    simpl in Hnd. pose proof (NoDup_remove_2 _ _ _ Hnd) as Hk.
    assert (Hk' : ~ In k (keys results))
      by (intros Hin; apply Hk, in_or_app; now left).
    assert (Hnd' : NoDup (keys (set results k (field_value els))
                          ++ keys selectors))
      by (rewrite (keys_set_new _ _ _ Hk'), <- app_assoc; exact Hnd).
    rewrite (IH _ _ _ _ Hnd' H), (keys_set_new _ _ _ Hk'), <- app_assoc.
    reflexivity.
Qed.

Lemma page_outcome_keys (url : string) (selectors : selectors_t) :
  NoDup (keys selectors) ->
  keys (fst (page_outcome url selectors)) = keys selectors.
Proof.
  intros Hnd.
  unfold page_outcome, extract_data, try_except, bind, http_get, lift, ret.
  destruct (requests_get url) as [response|e];
    [|apply not_found_keys_eq, Hnd].
  destruct (negb (status_code response =? 200)%Z);
    [apply not_found_keys_eq, Hnd|].
  destruct (BeautifulSoup (text response)) as [doc|e];
    [|apply not_found_keys_eq, Hnd].
  destruct (foldM (extract_field doc) selectors []
              (log_request url empty_store)) as [s' [results|e]] eqn:E;
    [|apply not_found_keys_eq, Hnd].
  simpl. exact (fields_loop_keys doc selectors [] _ _ _ Hnd E).
Qed.

(** X7. On every path, the record [extract_data] returns has the names of
    the rule set as its fields, in the order of the rule set. *)
Theorem extract_data_columns (url : string) (selectors : selectors_t)
    (s : store) :
  NoDup (keys selectors) ->
  exists data error,
    extract_data url selectors s = (log_request url s, Ok (data, error))
    /\ keys data = keys selectors.
Proof.
  intros Hnd. rewrite extract_data_run.
  pose proof (page_outcome_keys url selectors Hnd) as Hk.
  destruct (page_outcome url selectors) as [data error].
  exists data, error. split; [reflexivity|exact Hk].
Qed.

Lemma fields_loop_raises (soup : Soup) (before after : selectors_t)
    (name e : string) (info : dict string) :
  Forall (selects soup) before ->
  select_elements soup info = Raise e ->
  forall results,
    steady (foldM (extract_field soup) (before ++ (name, info) :: after)
              results)
      (Raise e).
Proof.
  intros Hall He.
  induction Hall as [|[k i] before [els Hels] _ IH]; intros results s;
    cbn [app foldM]; unfold bind; rewrite extract_field_run.
  - now rewrite He.
  - simpl in Hels. rewrite Hels. apply IH.
Qed.

(** X8. One rule that raises blanks the whole record: when the page is
    fetched and parsed but the selector of some rule raises, every field
    is the not-found marker, also those of the rules before it, and the
    error is the message of the first rule that raised. *)
Theorem extract_data_rule_raises (url : string) (response : response)
    (soup : Soup) (before after : selectors_t) (name e : string)
    (info : dict string) (s : store) :
  requests_get url = Ok response ->
  status_code response = 200%Z ->
  BeautifulSoup (text response) = Ok soup ->
  Forall (selects soup) before ->
  select_elements soup info = Raise e ->
  extract_data url (before ++ (name, info) :: after)%list s
  = (log_request url s,
     Ok (not_found (before ++ (name, info) :: after)%list,
         Some ("Error: " ++ e))).
Proof.
  intros Hget Hs Hdoc Hall He.
  unfold extract_data, try_except, bind, http_get, lift, ret.
  rewrite Hget, Hs, Hdoc. simpl.
  now rewrite (fields_loop_raises soup before after name e info Hall He).
Qed.

(** X9. A page that does not parse gives the record of a failed page:
    every field is the not-found marker and the error is the message of
    the parser. *)
Theorem extract_data_parse_failure (url : string) (response : response)
    (selectors : selectors_t) (e : string) (s : store) :
  requests_get url = Ok response ->
  status_code response = 200%Z ->
  BeautifulSoup (text response) = Raise e ->
  extract_data url selectors s
  = (log_request url s, Ok (not_found selectors, Some ("Error: " ++ e))).
Proof.
  intros Hget Hs Hdoc.
  unfold extract_data, try_except, bind, http_get, lift, ret.
  now rewrite Hget, Hs, Hdoc.
Qed.

(** X10. A rule of the xpath kind searches by what [parse_xpath] makes of
    its expression: by tag and the one attribute for an expression of the
    attribute form, and for the first [div] of the page, with no filter,
    for an expression that does not start with two slashes. *)
Theorem xpath_rule_elements (soup : Soup) (info : dict string) :
  get_or info "type" "css" = "xpath" ->
  (forall tag attr value,
      ascii_attr_form (get_or info "value" "") tag attr value ->
      select_elements soup info = soup_find_all soup tag [(attr, value)])
  /\ (Re.lit "//" (get_or info "value" "") = None ->
      select_elements soup info = soup_find_all soup "div" []).
Proof.
  intros Hk. unfold select_elements. rewrite Hk. simpl. split.
  - intros tag attr value Hf. apply ascii_attr_form_attr_form in Hf.
    now rewrite (parse_xpath_attr_form _ _ _ _ Hf).
  - intros Hn. now rewrite (parse_xpath_no_slashes _ Hn).
Qed.

(** *** The worklist *)

(** X11. With crawling off and a page cap of at least 1, the worklist is
    the start URL alone and building it issues no request. *)
Theorem worklist_without_crawl (start_url base_domain : string)
    (max_pages : Z) (s : store) :
  (1 <= max_pages)%Z ->
  build_worklist start_url base_domain max_pages false s
  = (s, Ok [start_url]).
Proof.
  intros Hcap. unfold build_worklist, bind, ret.
  rewrite slice_to_whole by (simpl; lia). reflexivity.
Qed.

Lemma slice_to_incl {A : Type} (l : list A) (n : Z) (x : A) :
  In x (slice_to l n) -> In x l.
Proof.
  unfold slice_to. intros H.
  rewrite <- (firstn_skipn
                (if (0 <=? n)%Z then Z.to_nat n
                 else Z.to_nat (Z.of_nat (length l) + n)) l).
  apply in_or_app. left. destruct (0 <=? n)%Z; exact H.
Qed.

Lemma slice_to_length_min {A : Type} (l : list A) (n : Z) :
  (0 <= n)%Z ->
  Z.of_nat (length (slice_to l n)) = Z.min n (Z.of_nat (length l)).
Proof.
  intros Hn. unfold slice_to.
  destruct (0 <=? n)%Z eqn:E; [|apply Z.leb_gt in E; lia].
  rewrite length_firstn. lia.
Qed.

(** X12. With crawling on, the worklist holds the start URL and links the
    collector returned, nothing else; its length is the smaller of the
    page cap and one plus the number of returned links other than the
    start URL; and a cap that leaves room for all of them drops none. *)
Theorem worklist_contents (start_url base_domain : string) (max_pages : Z)
    (s : store) :
  exists new_links urls,
    get_all_links start_url base_domain s
    = (log_request start_url s, Ok new_links)
    /\ build_worklist start_url base_domain max_pages true s
       = (log_request start_url s, Ok urls)
    /\ (forall link, In link urls -> link = start_url \/ In link new_links)
    /\ ((0 <= max_pages)%Z ->
        Z.of_nat (length urls)
        = Z.min max_pages
            (Z.of_nat
               (S (length
                     (filter (fun link => negb (link =? start_url)%string)
                        new_links)))))
    /\ ((Z.of_nat (S (length new_links)) <= max_pages)%Z ->
        forall link, In link new_links -> In link urls).
Proof.
  destruct (build_worklist_run start_url base_domain max_pages true)
    as (urls & Hrun & _ & _ & Hon).
  destruct (Hon eq_refl) as (new_links & Hlinks & Hnd & ->).
  exists new_links. eexists. split; [apply Hlinks|]. split; [apply Hrun|].
  split; [|split].
  - intros link Hin. apply slice_to_incl in Hin as [<-|Hin]; [now left|].
    right. now apply filter_In in Hin.
  - intros Hcap. now rewrite slice_to_length_min.
  - intros Hcap link Hin.
    rewrite slice_to_whole.
    + destruct (String.eqb_spec link start_url) as [->|Hne]; [now left|].
      right. apply filter_In. split; [assumption|].
      apply negb_true_iff. now apply String.eqb_neq.
    + cbn [length].
      pose proof (filter_length_le
                    (fun link => negb (link =? start_url)%string) new_links).
      lia.
Qed.

(** *** [scrape_website] *)


(** X14. The rows of the table stand in the order in which the futures
    completed, not in the order of the worklist: the i-th row is the row
    of the i-th page to complete. *)
Theorem scrape_website_completion_order (start_url : string)
    (selectors : selectors_t) (max_pages : Z) (crawl_same_domain : bool)
    (s : store) :
  is_valid_url start_url = true ->
  exists parsed urls rows msg s',
    urlparse start_url = Ok parsed
    /\ (forall s0, exists s1,
           build_worklist start_url (netloc parsed) max_pages
             crawl_same_domain s0 = (s1, Ok urls))
    /\ scrape_website start_url selectors max_pages crawl_same_domain s
       = (s', Ok (rows, msg))
    /\ map row_url rows = as_completed urls
    /\ forall i url,
         nth_error (as_completed urls) i = Some url ->
         nth_error rows i
         = Some (set (fst (page_outcome url selectors)) "url" url).
Proof.
  intros Hv.
  destruct (scrape_website_trace start_url selectors max_pages
              crawl_same_domain s Hv)
    as (parsed & urls & Hp & Hwl & _ & Hrun).
  exists parsed, urls. do 3 eexists.
  split; [exact Hp|]. split; [intros s0; eexists; apply Hwl|].
  split; [exact Hrun|]. split.
  - rewrite map_map. rewrite <- (map_id (as_completed urls)) at 2.
    apply map_ext. apply row_url_record_of.
  - intros i url Hi. now rewrite nth_error_map, Hi.
Qed.

(** X15. Every row of the table has the names of the rule set as its
    columns, in rule order, followed by the column url; a rule that is
    itself named url adds no column, and its extracted value gives way to
    the URL of the page. *)
Theorem scrape_website_row_columns (start_url : string)
    (selectors : selectors_t) (max_pages : Z) (crawl_same_domain : bool)
    (s : store) :
  is_valid_url start_url = true ->
  NoDup (keys selectors) ->
  exists parsed urls rows msg s',
    urlparse start_url = Ok parsed
    /\ (forall s0, exists s1,
           build_worklist start_url (netloc parsed) max_pages
             crawl_same_domain s0 = (s1, Ok urls))
    /\ scrape_website start_url selectors max_pages crawl_same_domain s
       = (s', Ok (rows, msg))
    /\ forall row,
         In row rows ->
         keys row
         = (if mem "url" (keys selectors) then keys selectors
            else (keys selectors ++ ["url"])%list)
         /\ exists url, In url urls /\ get row "url" = Some url.
Proof.
  intros Hv Hnd.
  destruct (scrape_website_trace start_url selectors max_pages
              crawl_same_domain s Hv)
    as (parsed & urls & Hp & Hwl & _ & Hrun).
  exists parsed, urls. do 3 eexists.
  split; [exact Hp|]. split; [intros s0; eexists; apply Hwl|].
  split; [exact Hrun|].
  intros row Hrow. apply in_map_iff in Hrow as (url & <- & Hurl). split.
  - unfold record_of.
    pose proof (page_outcome_keys url selectors Hnd) as Hk.
    destruct (mem "url" (keys selectors)) eqn:E.
    + apply mem_In in E. rewrite <- Hk in E.
      now rewrite (keys_set_keep _ _ _ E).
    + apply mem_not_In in E. rewrite <- Hk in E.
      now rewrite (keys_set_new _ _ _ E), Hk.
  - exists url. split.
    + apply (Permutation_in _ (as_completed_perm urls) Hurl).
    + apply get_set_same.
Qed.

(** X16. A page of the worklist whose fetch fails does not abort the
    crawl: the table holds its row, the not-found marker in every field
    beside its URL, and the warnings hold a line with the URL and the
    error. *)
Theorem scrape_website_failed_page (start_url : string)
    (selectors : selectors_t) (max_pages : Z) (crawl_same_domain : bool)
    (s : store) :
  is_valid_url start_url = true ->
  exists parsed urls rows msg s',
    urlparse start_url = Ok parsed
    /\ (forall s0, exists s1,
           build_worklist start_url (netloc parsed) max_pages
             crawl_same_domain s0 = (s1, Ok urls))
    /\ scrape_website start_url selectors max_pages crawl_same_domain s
       = (s', Ok (rows, msg))
    /\ forall url err,
         In url urls ->
         fetch_failure url err ->
         In (set (not_found selectors) "url" url) rows
         /\ In ("Error on " ++ url ++ ": " ++ err) (error_log s').
Proof.
  intros Hv.
  destruct (scrape_website_trace start_url selectors max_pages
              crawl_same_domain s Hv)
    as (parsed & urls & Hp & Hwl & _ & Hrun).
  exists parsed, urls. do 3 eexists.
  split; [exact Hp|]. split; [intros s0; eexists; apply Hwl|].
  split; [exact Hrun|].
  intros url err Hurl Hf.
  apply (Permutation_in _ (Permutation_sym (as_completed_perm urls)))
    in Hurl.
  pose proof (page_outcome_failure url err selectors Hf) as Hout.
  split.
  - apply in_map_iff. exists url. split; [|assumption].
    unfold record_of. now rewrite Hout.
  - rewrite (proj2 (proj2 (after_pool_fields selectors
                             (as_completed urls) _))).
    apply in_or_app. right. apply in_map_iff. exists url. split.
    + unfold warning_line. now rewrite Hout.
    + apply filter_In. split; [assumption|].
      unfold has_error. rewrite Hout. simpl.
      destruct Hf as [(c & _ & ->)|(r & _ & _ & ->)]; reflexivity.
Qed.

(** X17. [scrape_website] never raises and never reports a failed crawl:
    it returns either the empty table with the summary of an invalid URL,
    or a table with the summary that counts its rows and a number of
    warnings no larger than the number of rows. *)
Theorem scrape_website_returns (start_url : string)
    (selectors : selectors_t) (max_pages : Z) (crawl_same_domain : bool)
    (s : store) :
  exists rows msg s',
    scrape_website start_url selectors max_pages crawl_same_domain s
    = (s', Ok (rows, msg))
    /\ ((rows = [] /\ msg = "Invalid URL provided")
        \/ exists warned,
             msg = summary (length rows) warned
             /\ (warned <= length rows)%nat).
Proof.
  destruct (is_valid_url start_url) eqn:Hv.
  - destruct (scrape_website_trace start_url selectors max_pages
                crawl_same_domain s Hv)
      as (parsed & urls & _ & _ & _ & Hrun).
    do 3 eexists. split; [exact Hrun|]. right.
    exists (length (filter (has_error selectors) urls)).
    rewrite length_map, (Permutation_length (as_completed_perm urls)).
    split; [reflexivity|apply filter_length_le].
  - exists [], "Invalid URL provided", s. split; [|now left].
    unfold scrape_website. now rewrite Hv.
Qed.

End MorePipelineFacts.

(** ** [main] *)

Section MainFacts.

Context {W : World}.

(** X18. When reading [BeautifulSoup.__version__] raises, [main] ends in
    its handler before the form is read: whatever was typed and whether
    or not the form was submitted, it shows the error, issues no request
    and scrapes nothing. *)
Theorem main_sidebar_failure (f : form) (e : string) (s : store) :
  BeautifulSoup_version = Raise e ->
  main f s = (s, Ok (Failure e)).
Proof.
  intros H. unfold main, try_except, bind, lift. now rewrite H.
Qed.

End MainFacts.

(** ** The further properties on the small site *)

Module SiteMore.

Import Site.

Definition home_page : parse_result :=
  {| scheme := "http"; netloc := "site.test" |}.

Lemma rules_NoDup : NoDup (keys rules).
Proof. repeat constructor; simpl; intuition discriminate. Qed.

(** X6 at work: the link to page a is among the links of the home page. *)
Lemma get_all_links_complete_witness :
  exists links,
    get_all_links (W := world) start "site.test" empty_store
    = (log_request start empty_store, Ok links)
    /\ In page_a links.
Proof.
  destruct (get_all_links_complete (W := world) start "site.test"
              (filter (fun e => (name e =? "a")%string) home) empty_store
              eq_refl)
    as (links & Hrun & Hiff).
  - repeat constructor; eexists; eexists; split; reflexivity.
  - exists links. split; [exact Hrun|]. apply Hiff.
    exists (anchor "/a"), home_page. simpl. auto.
Defined.

(** X7 at work: the columns of the record of the home page. *)
Lemma extract_data_columns_witness :
  exists data error,
    extract_data (W := world) start rules empty_store
    = (log_request start empty_store, Ok (data, error))
    /\ keys data = ["title"; "body"; "price"].
Proof.
  exact (extract_data_columns (W := world) start rules empty_store
           rules_NoDup).
Defined.

(** X8 at work: a rule with no selector after a rule that finds its
    element. *)
Lemma extract_data_rule_raises_witness :
  extract_data (W := world) start
    [ ("title", [("type", "css"); ("value", "h1")]);
      ("broken", [("type", "css")]) ] empty_store
  = (log_request start empty_store,
     Ok ([("title", "N/A"); ("broken", "N/A")],
         Some "Error: Expected a selector")).
Proof.
  apply (extract_data_rule_raises (W := world) start
           {| status_code := 200; text := "home" |} home
           [ ("title", [("type", "css"); ("value", "h1")]) ] []
           "broken" "Expected a selector" [("type", "css")] empty_store);
    try reflexivity.
  repeat constructor. eexists. reflexivity.
Defined.

(** X9 at work: the home page behind the parser that gives up. *)
Lemma extract_data_parse_failure_witness :
  extract_data (W := Outage.world) start rules empty_store
  = (log_request start empty_store,
     Ok ([("title", "N/A"); ("body", "N/A"); ("price", "N/A")],
         Some "Error: malformed start tag")).
Proof.
  exact (extract_data_parse_failure (W := Outage.world) start
           {| status_code := 200; text := "home" |} rules
           "malformed start tag" empty_store eq_refl eq_refl eq_refl).
Defined.

(** X10 at work: an expression of the attribute form, and one that is no
    expression at all. *)
Lemma xpath_rule_elements_witness :
  select_elements (W := world) home
    [("type", "xpath");
     ("value", "//div[@class=" ++ dq ++ "content" ++ dq ++ "]")]
  = find_all home "div" [("class", "content")]
  /\ select_elements (W := world) home
       [("type", "xpath"); ("value", "@@garbage")]
     = find_all home "div" [].
Proof.
  split.
  - apply (proj1 (xpath_rule_elements (W := world) home
                    [("type", "xpath");
                     ("value",
                      "//div[@class=" ++ dq ++ "content" ++ dq ++ "]")]
                    eq_refl)).
    exists "". repeat split; (reflexivity || discriminate).
  - apply (proj2 (xpath_rule_elements (W := world) home
                    [("type", "xpath"); ("value", "@@garbage")] eq_refl)).
    reflexivity.
Defined.

(** X11 at work: crawling off, a cap of ten. *)
Lemma worklist_without_crawl_witness :
  build_worklist (W := world) start "site.test" 10 false empty_store
  = (empty_store, Ok [start]).
Proof.
  apply (worklist_without_crawl (W := world)). lia.
Defined.

(** X12 at work: a cap of ten keeps the five links of the home page. *)
Lemma worklist_contents_witness :
  exists urls,
    build_worklist (W := world) start "site.test" 10 true empty_store
    = (log_request start empty_store, Ok urls)
    /\ In page_a urls.
Proof.
  destruct (worklist_contents (W := world) start "site.test" 10 empty_store)
    as (new_links & urls & Hlinks & Hrun & _ & _ & Hall).
  vm_compute in Hlinks. inversion Hlinks; subst new_links.
  exists urls. split; [exact Hrun|]. apply Hall.
  - simpl. lia.
  - simpl. auto.
Defined.


(** X14 at work: page a completes before the start page. *)
Lemma scrape_website_completion_order_witness :
  exists rows msg s',
    scrape_website (W := world) start rules 2 true empty_store
    = (s', Ok (rows, msg))
    /\ map row_url rows = [page_a; start].
Proof.
  destruct (scrape_website_completion_order (W := world) start rules 2 true
              empty_store eq_refl)
    as (parsed & urls & rows & msg & s' & Hp & Hwl & Hrun & Horder & _).
  vm_compute in Hp. inversion Hp; subst parsed.
  destruct (Hwl empty_store) as [s1 E].
  vm_compute in E. inversion E; subst urls.
  exists rows, msg, s'. split; [exact Hrun|exact Horder].
Defined.

(** X15 at work: the columns of a crawl with the three rules. *)
Lemma scrape_website_row_columns_witness :
  exists rows msg s',
    scrape_website (W := world) start rules 2 true empty_store
    = (s', Ok (rows, msg))
    /\ forall row, In row rows -> keys row = ["title"; "body"; "price"; "url"].
Proof.
  destruct (scrape_website_row_columns (W := world) start rules 2 true
              empty_store eq_refl rules_NoDup)
    as (parsed & urls & rows & msg & s' & _ & _ & Hrun & Hcols).
  exists rows, msg, s'. split; [exact Hrun|].
  intros row Hrow. exact (proj1 (Hcols row Hrow)).
Defined.

(** X16 at work: page e answers 404 and keeps its row. *)
Lemma scrape_website_failed_page_witness :
  exists rows msg s',
    scrape_website (W := world) start rules 10 true empty_store
    = (s', Ok (rows, msg))
    /\ In [("title", "N/A"); ("body", "N/A"); ("price", "N/A");
           ("url", page_e)] rows
    /\ In ("Error on " ++ page_e ++ ": Error: HTTP 404") (error_log s').
Proof.
  destruct (scrape_website_failed_page (W := world) start rules 10 true
              empty_store eq_refl)
    as (parsed & urls & rows & msg & s' & Hp & Hwl & Hrun & Hfail).
  vm_compute in Hp. inversion Hp; subst parsed.
  destruct (Hwl empty_store) as [s1 E].
  vm_compute in E. inversion E; subst urls.
  exists rows, msg, s'. split; [exact Hrun|].
  apply (Hfail page_e "Error: HTTP 404").
  - simpl. auto 10.
  - right. exists {| status_code := 404; text := "" |}.
    split; [reflexivity|split; [simpl; discriminate|reflexivity]].
Defined.

(** X18 at work: the form is filled in and submitted, and nothing is
    fetched. *)
Lemma main_sidebar_failure_witness :
  main (W := world)
    {| form_start_url := start;
       form_rows := [ {| field_name := "title"; selector_value := "h1";
                         selector_type := "css" |} ];
       form_max_pages := 10;
       form_crawl := true;
       form_submitted := true |} empty_store
  = (empty_store, Ok (Failure no_version)).
Proof.
  apply (main_sidebar_failure (W := world)). reflexivity.
Defined.

End SiteMore.
